(** * Users and orders over an in-memory database

    A shallow embedding of the three components of the repository:

    - [InMemoryDatabase] (declared in services/database.hpp): two
      [std::unordered_map]s keyed by [int], with two id counters;
    - [UserService] (src/user_service.cpp);
    - [OrderService] (declared in services/order_service.hpp), which reads
      users through the user service and orders through the database.

    Conventions of the embedding.

    - Both services hold a [shared_ptr] to one and the same database object.
      The model threads that single database value through every call: a
      method [R C::m(args)] becomes [m args db : R * InMemoryDatabase.t],
      a [const] method becomes [m args db : R].
    - [int] is a 32-bit two's complement integer, carried as a [Z].  The
      only arithmetic is the post-increment of the id counters, written
      [int_incr] with its wrap-around spelled out.  Signed overflow is
      undefined behaviour in C++, so the executions the development speaks
      about ([reachable]) are the ones in which no counter is incremented
      at [INT_MAX].
    - [double] is a binary64 float: Rocq's primitive [float].
    - [std::unordered_map<int, T>] is a [gmap Z T].  Its iteration order is
      unspecified; [map_to_list] fixes one enumeration and no statement
      depends on which one it is.
    - The mutex of the database is not modelled: every method holds it for
      its whole body, so methods are atomic state transformers. *)

From Stdlib Require Import ZArith String Ascii Bool List.
From Stdlib Require Import Floats.PrimFloat.
From stdpp Require Import gmap fin_maps list.

Local Open Scope Z_scope.

(** ** Machine integers *)

Definition INT_MAX : Z := 2147483647.
Definition INT_MIN : Z := -2147483648.

(** Reduction of an integer to the 32-bit two's complement range. *)
Definition int_wrap (z : Z) : Z := (z + 2 ^ 31) mod 2 ^ 32 - 2 ^ 31.

(** The value of an [int] variable after [x++]. *)
Definition int_incr (x : Z) : Z := int_wrap (x + 1).

(** ** contracts/order_contract.hpp, contracts/user_contract.hpp *)

Inductive OrderStatus : Type :=
  | PENDING
  | CONFIRMED
  | SHIPPED
  | DELIVERED
  | CANCELLED.

Definition OrderStatus_eqb (a b : OrderStatus) : bool :=
  match a, b with
  | PENDING, PENDING
  | CONFIRMED, CONFIRMED
  | SHIPPED, SHIPPED
  | DELIVERED, DELIVERED
  | CANCELLED, CANCELLED => true
  | _, _ => false
  end.

#[global] Instance OrderStatus_eq_dec : EqDecision OrderStatus.
Proof. solve_decision. Defined.

Module User.
Record t : Type := mk
  { id : Z;
    name : string;
    email : string;
    is_active : bool }.

Definition with_id (i : Z) (u : t) : t :=
  {| id := i; name := name u; email := email u; is_active := is_active u |}.

Definition with_is_active (b : bool) (u : t) : t :=
  {| id := id u; name := name u; email := email u; is_active := b |}.
End User.

Module Order.
Record t : Type := mk
  { id : Z;
    user_id : Z;
    product_name : string;
    amount : float;
    status : OrderStatus }.

Definition with_id (i : Z) (o : t) : t :=
  {| id := i; user_id := user_id o; product_name := product_name o;
     amount := amount o; status := status o |}.

Definition with_status (s : OrderStatus) (o : t) : t :=
  {| id := id o; user_id := user_id o; product_name := product_name o;
     amount := amount o; status := s |}.
End Order.

(** [std::string::empty]. *)
Definition string_empty (s : string) : bool :=
  match s with
  | EmptyString => true
  | String _ _ => false
  end.

(** ** The in-memory database (services/database.hpp) *)

Module InMemoryDatabase.

Record t : Type := mk
  { users_ : gmap Z User.t;
    orders_ : gmap Z Order.t;
    next_user_id_ : Z;
    next_order_id_ : Z }.

(** The default-constructed database: empty maps, both counters at 1. *)
Definition init : t :=
  {| users_ := ∅; orders_ := ∅; next_user_id_ := 1; next_order_id_ := 1 |}.

Definition set_users (m : gmap Z User.t) (db : t) : t :=
  {| users_ := m; orders_ := orders_ db;
     next_user_id_ := next_user_id_ db; next_order_id_ := next_order_id_ db |}.

Definition set_orders (m : gmap Z Order.t) (db : t) : t :=
  {| users_ := users_ db; orders_ := m;
     next_user_id_ := next_user_id_ db; next_order_id_ := next_order_id_ db |}.

Definition saveUser (user : User.t) (db : t) : Z * t :=
  let new_user := User.with_id (next_user_id_ db) user in
  (User.id new_user,
   {| users_ := <[User.id new_user := new_user]> (users_ db);
      orders_ := orders_ db;
      next_user_id_ := int_incr (next_user_id_ db);
      next_order_id_ := next_order_id_ db |}).

Definition findUserById (id : Z) (db : t) : option User.t :=
  users_ db !! id.

Definition findAllUsers (db : t) : list User.t :=
  map snd (map_to_list (users_ db)).

Definition updateUser (user : User.t) (db : t) : bool * t :=
  match users_ db !! User.id user with
  | Some _ => (true, set_users (<[User.id user := user]> (users_ db)) db)
  | None => (false, db)
  end.

Definition deleteUser (id : Z) (db : t) : bool * t :=
  match users_ db !! id with
  | Some _ => (true, set_users (delete id (users_ db)) db)
  | None => (false, db)
  end.

Definition saveOrder (order : Order.t) (db : t) : Z * t :=
  let new_order := Order.with_id (next_order_id_ db) order in
  (Order.id new_order,
   {| users_ := users_ db;
      orders_ := <[Order.id new_order := new_order]> (orders_ db);
      next_user_id_ := next_user_id_ db;
      next_order_id_ := int_incr (next_order_id_ db) |}).

Definition findOrderById (id : Z) (db : t) : option Order.t :=
  orders_ db !! id.

Definition findAllOrders (db : t) : list Order.t :=
  map snd (map_to_list (orders_ db)).

Definition findOrdersByUserId (user_id : Z) (db : t) : list Order.t :=
  List.filter (fun order => Order.user_id order =? user_id)
              (map snd (map_to_list (orders_ db))).

Definition updateOrder (order : Order.t) (db : t) : bool * t :=
  match orders_ db !! Order.id order with
  | Some _ => (true, set_orders (<[Order.id order := order]> (orders_ db)) db)
  | None => (false, db)
  end.

Definition deleteOrder (id : Z) (db : t) : bool * t :=
  match orders_ db !! id with
  | Some _ => (true, set_orders (delete id (orders_ db)) db)
  | None => (false, db)
  end.

Definition clear (db : t) : t :=
  {| users_ := ∅; orders_ := ∅; next_user_id_ := 1; next_order_id_ := 1 |}.

End InMemoryDatabase.

(** ** src/user_service.cpp *)

Module UserService.
Import InMemoryDatabase.

Definition isValidName (name : string) : bool :=
  negb (string_empty name).

Definition isValidEmail (email : string) : bool :=
  negb (string_empty email).

Definition createUser (name email : string) (db : t) : Z * t :=
  if negb (isValidName name) || negb (isValidEmail email) then (-1, db)
  else
    saveUser {| User.id := 0; User.name := name; User.email := email;
                User.is_active := true |} db.

Definition getUser (id : Z) (db : t) : option User.t :=
  findUserById id db.

Definition getActiveUsers (db : t) : list User.t :=
  List.filter User.is_active (findAllUsers db).

Definition deactivateUser (id : Z) (db : t) : bool * t :=
  match findUserById id db with
  | None => (false, db)
  | Some user => updateUser (User.with_is_active false user) db
  end.

Definition userExists (id : Z) (db : t) : bool :=
  match findUserById id db with
  | Some _ => true
  | None => false
  end.

End UserService.

(** ** The order service (services/order_service.hpp) *)

Module OrderService.
Import InMemoryDatabase.

Definition isValidProductName (name : string) : bool :=
  negb (string_empty name).

Definition isValidAmount (amount : float) : bool :=
  PrimFloat.ltb 0%float amount.

Definition canCancel (status : OrderStatus) : bool :=
  OrderStatus_eqb status PENDING || OrderStatus_eqb status CONFIRMED.

Definition createOrder (user_id : Z) (product_name : string) (amount : float)
    (db : t) : Z * t :=
  match UserService.getUser user_id db with
  | None => (-1, db)
  | Some user =>
      if negb (User.is_active user) then (-1, db)
      else if negb (isValidProductName product_name)
              || negb (isValidAmount amount) then (-1, db)
      else
        saveOrder {| Order.id := 0; Order.user_id := user_id;
                     Order.product_name := product_name;
                     Order.amount := amount;
                     Order.status := PENDING |} db
  end.

Definition getOrder (id : Z) (db : t) : option Order.t :=
  findOrderById id db.

Definition getUserOrders (user_id : Z) (db : t) : list Order.t :=
  findOrdersByUserId user_id db.

Definition updateOrderStatus (id : Z) (status : OrderStatus) (db : t)
    : bool * t :=
  match findOrderById id db with
  | None => (false, db)
  | Some order => updateOrder (Order.with_status status order) db
  end.

Definition cancelOrder (id : Z) (db : t) : bool * t :=
  match findOrderById id db with
  | None => (false, db)
  | Some order =>
      if negb (canCancel (Order.status order)) then (false, db)
      else updateOrder (Order.with_status CANCELLED order) db
  end.

(** The lambda handed to [std::accumulate]. *)
Definition add_unless_cancelled (sum : float) (order : Order.t) : float :=
  if negb (OrderStatus_eqb (Order.status order) CANCELLED)
  then PrimFloat.add sum (Order.amount order)
  else sum.

Definition getTotalAmount (user_id : Z) (db : t) : float :=
  fold_left add_unless_cancelled (findOrdersByUserId user_id db) 0%float.

End OrderService.

(** ** Executions of the database

    Everything the services and the tests do to the shared database goes
    through the mutating methods of [IDatabase].  An execution is a sequence
    of such calls on the default-constructed database; the calls and the
    values they returned are recorded, most recent first. *)

Inductive Op : Type :=
  | SaveUser (user : User.t)
  | UpdateUser (user : User.t)
  | DeleteUser (id : Z)
  | SaveOrder (order : Order.t)
  | UpdateOrder (order : Order.t)
  | DeleteOrder (id : Z)
  | Clear.

Inductive Ret : Type :=
  | RInt (z : Z)
  | RBool (b : bool)
  | RVoid.

Definition exec (op : Op) (db : InMemoryDatabase.t) : Ret * InMemoryDatabase.t :=
  match op with
  | SaveUser u => let r := InMemoryDatabase.saveUser u db in (RInt r.1, r.2)
  | UpdateUser u => let r := InMemoryDatabase.updateUser u db in (RBool r.1, r.2)
  | DeleteUser i => let r := InMemoryDatabase.deleteUser i db in (RBool r.1, r.2)
  | SaveOrder o => let r := InMemoryDatabase.saveOrder o db in (RInt r.1, r.2)
  | UpdateOrder o => let r := InMemoryDatabase.updateOrder o db in (RBool r.1, r.2)
  | DeleteOrder i => let r := InMemoryDatabase.deleteOrder i db in (RBool r.1, r.2)
  | Clear => (RVoid, InMemoryDatabase.clear db)
  end.

(** A call has defined behaviour when the counter it increments, if any,
    is below [INT_MAX]. *)
Definition defined (op : Op) (db : InMemoryDatabase.t) : Prop :=
  match op with
  | SaveUser _ => InMemoryDatabase.next_user_id_ db < INT_MAX
  | SaveOrder _ => InMemoryDatabase.next_order_id_ db < INT_MAX
  | _ => True
  end.

Definition History : Type := list (Op * Ret).

Inductive reachable : InMemoryDatabase.t -> History -> Prop :=
  | reachable_init :
      reachable InMemoryDatabase.init []
  | reachable_step db h op :
      reachable db h ->
      defined op db ->
      reachable (exec op db).2 ((op, (exec op db).1) :: h).

(** Ids handed out by [saveUser] since the last [clear], most recent first. *)
Fixpoint user_ids_since_clear (h : History) : list Z :=
  match h with
  | [] => []
  | (Clear, _) :: _ => []
  | (SaveUser _, RInt i) :: h' => i :: user_ids_since_clear h'
  | _ :: h' => user_ids_since_clear h'
  end.

(** Ids handed out by [saveOrder] since the last [clear], most recent first. *)
Fixpoint order_ids_since_clear (h : History) : list Z :=
  match h with
  | [] => []
  | (Clear, _) :: _ => []
  | (SaveOrder _, RInt i) :: h' => i :: order_ids_since_clear h'
  | _ :: h' => order_ids_since_clear h'
  end.

(** ** Running a list of calls

    [run] performs the calls in order and extends the history. *)

Fixpoint run (ops : list Op) (s : InMemoryDatabase.t * History)
    : InMemoryDatabase.t * History :=
  match ops with
  | [] => s
  | op :: ops' => run ops' ((exec op s.1).2, (op, (exec op s.1).1) :: s.2)
  end.

Fixpoint all_defined (ops : list Op) (db : InMemoryDatabase.t) : Prop :=
  match ops with
  | [] => True
  | op :: ops' => defined op db /\ all_defined ops' (exec op db).2
  end.

(** A sample execution: one user, three orders, the second shipped and
    the third cancelled through [updateOrder]. *)

Definition sample_user : User.t :=
  {| User.id := 0; User.name := "Alice"; User.email := "alice@example.com";
     User.is_active := true |}.

Definition sample_order (product : string) (amount : float) : Order.t :=
  {| Order.id := 0; Order.user_id := 1; Order.product_name := product;
     Order.amount := amount; Order.status := PENDING |}.

Definition sample_ops : list Op :=
  [ SaveUser sample_user;
    SaveOrder (sample_order "Laptop" 75000);
    SaveOrder (sample_order "Mouse" 2500);
    SaveOrder (sample_order "Cable" 10);
    UpdateOrder (Order.with_status SHIPPED
                   (Order.with_id 2 (sample_order "Mouse" 2500)));
    UpdateOrder (Order.with_status CANCELLED
                   (Order.with_id 3 (sample_order "Cable" 10))) ].

Definition sample_db : InMemoryDatabase.t :=
  (run sample_ops (InMemoryDatabase.init, [])).1.

Definition sample_history : History :=
  (run sample_ops (InMemoryDatabase.init, [])).2.

(** ** Notions taken from the contract documentation *)

(** The documented e-mail rule: the address contains the given character. *)
Fixpoint contains_char (c : ascii) (s : string) : bool :=
  match s with
  | EmptyString => false
  | String a s' => if Ascii.eqb a c then true else contains_char c s'
  end.

Definition at_sign : ascii := "@"%char.

(** Left-to-right sum of the amounts of a list of orders, from [0.0]. *)
Definition sum_amounts (l : list Order.t) : float :=
  fold_left (fun acc o => PrimFloat.add acc (Order.amount o)) l 0%float.

(** The orders that count towards the total of [user_id]: those of that
    user that are not cancelled, in the enumeration order of the store. *)
Definition billable_orders (user_id : Z) (db : InMemoryDatabase.t) : list Order.t :=
  filter (fun o => Order.user_id o = user_id /\ Order.status o <> CANCELLED)
         (InMemoryDatabase.findAllOrders db).

(** ** Well-formed databases *)

(** Every record is stored under its own id, ids are positive and below the
    counter, and the counters are positive [int]s. *)
Record wf (db : InMemoryDatabase.t) : Prop := mk_wf
  { wf_user_counter :
      1 <= InMemoryDatabase.next_user_id_ db <= INT_MAX;
    wf_order_counter :
      1 <= InMemoryDatabase.next_order_id_ db <= INT_MAX;
    wf_users : forall k u,
      InMemoryDatabase.users_ db !! k = Some u ->
      User.id u = k /\ 1 <= k < InMemoryDatabase.next_user_id_ db;
    wf_orders : forall k o,
      InMemoryDatabase.orders_ db !! k = Some o ->
      Order.id o = k /\ 1 <= k < InMemoryDatabase.next_order_id_ db }.


(** ** Executions through the services

    The callers of the repository (its tests, an application) drive the
    system through the mutating methods of the two services, and reset it
    with [clear] on the database they share. *)

Inductive Call : Type :=
  | CreateUser (name email : string)
  | DeactivateUser (id : Z)
  | CreateOrder (user_id : Z) (product_name : string) (amount : float)
  | UpdateOrderStatus (id : Z) (status : OrderStatus)
  | CancelOrder (id : Z)
  | ClearDatabase.

(** The database after a call. *)
Definition call (c : Call) (db : InMemoryDatabase.t) : InMemoryDatabase.t :=
  match c with
  | CreateUser name email => (UserService.createUser name email db).2
  | DeactivateUser id => (UserService.deactivateUser id db).2
  | CreateOrder user_id product_name amount =>
      (OrderService.createOrder user_id product_name amount db).2
  | UpdateOrderStatus id status =>
      (OrderService.updateOrderStatus id status db).2
  | CancelOrder id => (OrderService.cancelOrder id db).2
  | ClearDatabase => InMemoryDatabase.clear db
  end.

(** As for [defined]: the creating calls need their counter below
    [INT_MAX]. *)
Definition call_defined (c : Call) (db : InMemoryDatabase.t) : Prop :=
  match c with
  | CreateUser _ _ => InMemoryDatabase.next_user_id_ db < INT_MAX
  | CreateOrder _ _ _ => InMemoryDatabase.next_order_id_ db < INT_MAX
  | _ => True
  end.

Inductive service_reachable : InMemoryDatabase.t -> Prop :=
  | service_reachable_init :
      service_reachable InMemoryDatabase.init
  | service_reachable_step db c :
      service_reachable db ->
      call_defined c db ->
      service_reachable (call c db).

(** A sample execution through the services: two users, the second one
    deactivated, two orders of the first user, the second order cancelled. *)
Definition sample_calls : list Call :=
  [ CreateUser "Alice" "alice@example.com";
    CreateUser "Bob" "bob@example.com";
    DeactivateUser 2;
    CreateOrder 1 "Laptop" 75000;
    CreateOrder 1 "Mouse" 2500;
    CancelOrder 2 ].

Definition service_sample_db : InMemoryDatabase.t :=
  fold_left (fun db c => call c db) sample_calls InMemoryDatabase.init.


(** What the validation of the services is there to guarantee: users have
    a name and an e-mail, and orders have a product and a positive amount
    and belong to a stored user. *)
Definition valid_records (db : InMemoryDatabase.t) : Prop :=
  (forall k u,
     InMemoryDatabase.users_ db !! k = Some u ->
     User.name u <> EmptyString /\ User.email u <> EmptyString) /\
  (forall k o,
     InMemoryDatabase.orders_ db !! k = Some o ->
     is_Some (InMemoryDatabase.users_ db !! Order.user_id o) /\
     Order.product_name o <> EmptyString /\
     PrimFloat.ltb 0 (Order.amount o) = true).


(** * Properties *)

(** ** Machine integers *)

Lemma int_incr_below_max x :
  INT_MIN <= x < INT_MAX -> int_incr x = x + 1.
Proof.
  unfold int_incr, int_wrap, INT_MIN, INT_MAX. intros Hx.
  rewrite Z.mod_small by lia. lia.
Qed.

Lemma int_incr_at_max : int_incr INT_MAX = INT_MIN.
Proof. reflexivity. Qed.

Lemma OrderStatus_eqb_eq a b : OrderStatus_eqb a b = true <-> a = b.
Proof. destruct a, b; simpl; split; congruence. Qed.

(** ** Well-formedness is an invariant of executions *)

Lemma wf_init : wf InMemoryDatabase.init.
Proof.
  split; simpl; unfold INT_MAX; try lia.
  - intros k u Hk. by rewrite lookup_empty in Hk.
  - intros k o Hk. by rewrite lookup_empty in Hk.
Qed.

Lemma wf_saveUser user db :
  wf db -> InMemoryDatabase.next_user_id_ db < INT_MAX ->
  wf (InMemoryDatabase.saveUser user db).2.
Proof.
  intros [Hu Ho Hus Hos] Hlt.
  assert (Hinc : int_incr (InMemoryDatabase.next_user_id_ db)
                 = InMemoryDatabase.next_user_id_ db + 1).
  { apply int_incr_below_max. unfold INT_MIN. lia. }
  split; simpl; rewrite ?Hinc; try lia; try done.
  intros k u. rewrite lookup_insert. case_decide as Hk.
  - intros [= <-]. simpl. lia.
  - intros Hl. destruct (Hus _ _ Hl). lia.
Qed.

Lemma wf_saveOrder order db :
  wf db -> InMemoryDatabase.next_order_id_ db < INT_MAX ->
  wf (InMemoryDatabase.saveOrder order db).2.
Proof.
  intros [Hu Ho Hus Hos] Hlt.
  assert (Hinc : int_incr (InMemoryDatabase.next_order_id_ db)
                 = InMemoryDatabase.next_order_id_ db + 1).
  { apply int_incr_below_max. unfold INT_MIN. lia. }
  split; simpl; rewrite ?Hinc; try lia; try done.
  intros k o. rewrite lookup_insert. case_decide as Hk.
  - intros [= <-]. simpl. lia.
  - intros Hl. destruct (Hos _ _ Hl). lia.
Qed.

Lemma wf_updateUser user db :
  wf db -> wf (InMemoryDatabase.updateUser user db).2.
Proof.
  intros Hwf. unfold InMemoryDatabase.updateUser.
  destruct (InMemoryDatabase.users_ db !! User.id user) as [old|] eqn:Hold;
    [|done].
  destruct Hwf as [Hu Ho Hus Hos]. split; simpl; try done.
  intros k u. rewrite lookup_insert. case_decide as Hk.
  - intros [= <-]. subst k. split; [done|]. by destruct (Hus _ _ Hold).
  - apply Hus.
Qed.

Lemma wf_updateOrder order db :
  wf db -> wf (InMemoryDatabase.updateOrder order db).2.
Proof.
  intros Hwf. unfold InMemoryDatabase.updateOrder.
  destruct (InMemoryDatabase.orders_ db !! Order.id order) as [old|] eqn:Hold;
    [|done].
  destruct Hwf as [Hu Ho Hus Hos]. split; simpl; try done.
  intros k o. rewrite lookup_insert. case_decide as Hk.
  - intros [= <-]. subst k. split; [done|]. by destruct (Hos _ _ Hold).
  - apply Hos.
Qed.

Lemma wf_deleteUser id db :
  wf db -> wf (InMemoryDatabase.deleteUser id db).2.
Proof.
  intros Hwf. unfold InMemoryDatabase.deleteUser.
  destruct (InMemoryDatabase.users_ db !! id); [|done].
  destruct Hwf as [Hu Ho Hus Hos]. split; simpl; try done.
  intros k u Hk. apply lookup_delete_Some in Hk as [_ Hk]. by apply Hus.
Qed.

Lemma wf_deleteOrder id db :
  wf db -> wf (InMemoryDatabase.deleteOrder id db).2.
Proof.
  intros Hwf. unfold InMemoryDatabase.deleteOrder.
  destruct (InMemoryDatabase.orders_ db !! id); [|done].
  destruct Hwf as [Hu Ho Hus Hos]. split; simpl; try done.
  intros k o Hk. apply lookup_delete_Some in Hk as [_ Hk]. by apply Hos.
Qed.

Lemma clear_init db : InMemoryDatabase.clear db = InMemoryDatabase.init.
Proof. reflexivity. Qed.

Lemma wf_exec op db : wf db -> defined op db -> wf (exec op db).2.
Proof.
  destruct op; simpl; intros Hwf Hdef.
  - by apply wf_saveUser.
  - by apply wf_updateUser.
  - by apply wf_deleteUser.
  - by apply wf_saveOrder.
  - by apply wf_updateOrder.
  - by apply wf_deleteOrder.
  - apply wf_init.
Qed.

Lemma reachable_wf db h : reachable db h -> wf db.
Proof.
  induction 1 as [|db h op _ IH Hdef]; [apply wf_init | by apply wf_exec].
Qed.

(** ** Ids handed out so far lie below the counters *)


(** ** Running a list of calls *)

Lemma run_reachable ops : forall db h,
  reachable db h -> all_defined ops db ->
  reachable (run ops (db, h)).1 (run ops (db, h)).2.
Proof.
  induction ops as [|op ops IH]; intros db h Hreach Hdef; [done|].
  destruct Hdef as [Hop Hrest]. simpl. apply IH; [|done].
  by apply reachable_step.
Qed.

(** ** The services act on the database through its methods only

    Each mutating method of the two services either leaves the database as
    it is or performs one call of [exec]; so the states the services
    produce are reachable ones. *)

Lemma createUser_reachable db h name email :
  reachable db h -> InMemoryDatabase.next_user_id_ db < INT_MAX ->
  exists h', reachable (UserService.createUser name email db).2 h'.
Proof.
  intros Hreach Hlt. unfold UserService.createUser.
  destruct (negb _ || negb _); [by exists h|].
  eexists. apply (reachable_step db h (SaveUser _) Hreach Hlt).
Qed.

Lemma deactivateUser_reachable db h id :
  reachable db h ->
  exists h', reachable (UserService.deactivateUser id db).2 h'.
Proof.
  intros Hreach. unfold UserService.deactivateUser.
  destruct (InMemoryDatabase.findUserById id db) as [u|]; [|by exists h].
  eexists. apply (reachable_step db h (UpdateUser _) Hreach I).
Qed.

Lemma createOrder_reachable db h user_id product_name amount :
  reachable db h -> InMemoryDatabase.next_order_id_ db < INT_MAX ->
  exists h',
    reachable (OrderService.createOrder user_id product_name amount db).2 h'.
Proof.
  intros Hreach Hlt. unfold OrderService.createOrder.
  destruct (UserService.getUser user_id db) as [u|]; [|by exists h].
  destruct (negb (User.is_active u)); [by exists h|].
  destruct (negb _ || negb _); [by exists h|].
  eexists. apply (reachable_step db h (SaveOrder _) Hreach Hlt).
Qed.

Lemma updateOrderStatus_reachable db h id status :
  reachable db h ->
  exists h', reachable (OrderService.updateOrderStatus id status db).2 h'.
Proof.
  intros Hreach. unfold OrderService.updateOrderStatus.
  destruct (InMemoryDatabase.findOrderById id db) as [o|]; [|by exists h].
  eexists. apply (reachable_step db h (UpdateOrder _) Hreach I).
Qed.

Lemma cancelOrder_reachable db h id :
  reachable db h ->
  exists h', reachable (OrderService.cancelOrder id db).2 h'.
Proof.
  intros Hreach. unfold OrderService.cancelOrder.
  destruct (InMemoryDatabase.findOrderById id db) as [o|]; [|by exists h].
  destruct (negb _); [by exists h|].
  eexists. apply (reachable_step db h (UpdateOrder _) Hreach I).
Qed.

Lemma sample_reachable : reachable sample_db sample_history.
Proof.
  apply (run_reachable sample_ops _ _ reachable_init).
  vm_compute. repeat split.
Qed.

(** ** The order service: cancellation and status updates *)

(** On a well-formed database a record read by id is written back under
    the same id. *)
Lemma updateOrder_found db id o o' :
  wf db ->
  InMemoryDatabase.findOrderById id db = Some o ->
  Order.id o' = Order.id o ->
  InMemoryDatabase.updateOrder o' db
  = (true, InMemoryDatabase.set_orders
             (<[id := o']> (InMemoryDatabase.orders_ db)) db).
Proof.
  intros Hwf Hfind Hid. unfold InMemoryDatabase.findOrderById in Hfind.
  destruct (wf_orders _ Hwf _ _ Hfind) as [Hk _].
  unfold InMemoryDatabase.updateOrder. rewrite Hid, Hk, Hfind. done.
Qed.

Lemma updateUser_found db id u u' :
  wf db ->
  InMemoryDatabase.findUserById id db = Some u ->
  User.id u' = User.id u ->
  InMemoryDatabase.updateUser u' db
  = (true, InMemoryDatabase.set_users
             (<[id := u']> (InMemoryDatabase.users_ db)) db).
Proof.
  intros Hwf Hfind Hid. unfold InMemoryDatabase.findUserById in Hfind.
  destruct (wf_users _ Hwf _ _ Hfind) as [Hk _].
  unfold InMemoryDatabase.updateUser. rewrite Hid, Hk, Hfind. done.
Qed.

Lemma canCancel_true s :
  OrderService.canCancel s = true <-> s = PENDING \/ s = CONFIRMED.
Proof.
  destruct s; simpl; split; try discriminate; auto;
    intros [H|H]; discriminate.
Qed.

Lemma cancelOrder_refused db id o :
  InMemoryDatabase.findOrderById id db = Some o ->
  OrderService.canCancel (Order.status o) = false ->
  OrderService.cancelOrder id db = (false, db).
Proof.
  intros Hfind Hcan. unfold OrderService.cancelOrder. by rewrite Hfind, Hcan.
Qed.

Lemma cancelOrder_unknown db id :
  InMemoryDatabase.findOrderById id db = None ->
  OrderService.cancelOrder id db = (false, db).
Proof. intros Hfind. unfold OrderService.cancelOrder. by rewrite Hfind. Qed.

(** C1 (as amended).  An order whose status is already [CANCELLED] is not
    cancelled again: [canCancel] accepts only [PENDING] and [CONFIRMED], so
    [cancelOrder] returns [false] and leaves the database as it was; the
    order is still there with status [CANCELLED]. *)
Theorem cancelOrder_on_cancelled db id o :
  InMemoryDatabase.findOrderById id db = Some o ->
  Order.status o = CANCELLED ->
  OrderService.cancelOrder id db = (false, db) /\
  OrderService.getOrder id (OrderService.cancelOrder id db).2 = Some o.
Proof.
  intros Hfind Hst.
  assert (E : OrderService.cancelOrder id db = (false, db)).
  { apply (cancelOrder_refused _ _ o); [done|]. by rewrite Hst. }
  split; [done|]. by rewrite E.
Qed.

Lemma cancelOrder_on_cancelled_witness :
  OrderService.cancelOrder 3 sample_db = (false, sample_db) /\
  OrderService.getOrder 3 (OrderService.cancelOrder 3 sample_db).2
  = Some (Order.with_status CANCELLED (Order.with_id 3 (sample_order "Cable" 10))).
Proof.
  apply (cancelOrder_on_cancelled sample_db 3).
  - vm_compute. reflexivity.
  - reflexivity.
Defined.

(** C1 (as stated) fails: in the sample execution order 3 is [CANCELLED]
    and [cancelOrder 3] returns [false], not [true]. *)
Lemma cancelled_order_cancel_is_refused :
  ~ (forall db h id o,
       reachable db h ->
       InMemoryDatabase.findOrderById id db = Some o ->
       Order.status o = CANCELLED ->
       (OrderService.cancelOrder id db).1 = true /\
       exists o', OrderService.getOrder id (OrderService.cancelOrder id db).2
                  = Some o' /\ Order.status o' = CANCELLED).
Proof.
  intros Hclaim.
  destruct (Hclaim sample_db sample_history 3
    (Order.with_status CANCELLED (Order.with_id 3 (sample_order "Cable" 10)))
    sample_reachable) as [Htrue _].
  - vm_compute. reflexivity.
  - reflexivity.
  - vm_compute in Htrue. discriminate.
Qed.

(** C4.  In every reachable state [cancelOrder id] returns [false] and
    changes nothing when no order has that id, and also when the order is
    [SHIPPED] or [DELIVERED]; when the order is [PENDING] or [CONFIRMED] it
    returns [true] and the database differs from the old one exactly in
    that the order stored under [id] now has status [CANCELLED], its other
    fields being those it had. *)
Theorem cancelOrder_spec db h id :
  reachable db h ->
  (InMemoryDatabase.findOrderById id db = None ->
   OrderService.cancelOrder id db = (false, db)) /\
  (forall o,
     InMemoryDatabase.findOrderById id db = Some o ->
     Order.status o = SHIPPED \/ Order.status o = DELIVERED ->
     OrderService.cancelOrder id db = (false, db) /\
     OrderService.getOrder id (OrderService.cancelOrder id db).2 = Some o) /\
  (forall o,
     InMemoryDatabase.findOrderById id db = Some o ->
     Order.status o = PENDING \/ Order.status o = CONFIRMED ->
     let cancelled :=
       {| Order.id := Order.id o; Order.user_id := Order.user_id o;
          Order.product_name := Order.product_name o;
          Order.amount := Order.amount o; Order.status := CANCELLED |} in
     OrderService.cancelOrder id db
     = (true, InMemoryDatabase.set_orders
                (<[id := cancelled]> (InMemoryDatabase.orders_ db)) db) /\
     OrderService.getOrder id (OrderService.cancelOrder id db).2
     = Some cancelled /\
     (exists o',
        OrderService.getOrder id (OrderService.cancelOrder id db).2 = Some o' /\
        Order.status o' = CANCELLED) /\
     (forall j, j <> id ->
        OrderService.getOrder j (OrderService.cancelOrder id db).2
        = OrderService.getOrder j db)).
Proof.
  intros Hreach. pose proof (reachable_wf _ _ Hreach) as Hwf.
  split; [apply cancelOrder_unknown|]. split.
  - intros o Hfind Hst.
    assert (E : OrderService.cancelOrder id db = (false, db)).
    { apply (cancelOrder_refused _ _ o); [done|]. by destruct Hst as [-> | ->]. }
    split; [done|]. by rewrite E.
  - intros o Hfind Hst cancelled.
    assert (E : OrderService.cancelOrder id db
                = (true, InMemoryDatabase.set_orders
                           (<[id := cancelled]>
                              (InMemoryDatabase.orders_ db)) db)).
    { unfold OrderService.cancelOrder. rewrite Hfind.
      apply canCancel_true in Hst. rewrite Hst. simpl.
      by rewrite (updateOrder_found db id o). }
    assert (Hget : OrderService.getOrder id (OrderService.cancelOrder id db).2
                   = Some cancelled).
    { rewrite E. unfold OrderService.getOrder, InMemoryDatabase.findOrderById.
      simpl. apply lookup_insert_eq. }
    split; [exact E|]. split; [exact Hget|]. split.
    + exists cancelled. by split.
    + intros j Hj. rewrite E.
      unfold OrderService.getOrder, InMemoryDatabase.findOrderById. simpl.
      by apply lookup_insert_ne.
Qed.

Lemma cancelOrder_spec_witness :
  let cancelled :=
    {| Order.id := 1; Order.user_id := 1; Order.product_name := "Laptop";
       Order.amount := 75000; Order.status := CANCELLED |} in
  OrderService.cancelOrder 1 sample_db
  = (true, InMemoryDatabase.set_orders
             (<[1 := cancelled]> (InMemoryDatabase.orders_ sample_db))
             sample_db) /\
  OrderService.getOrder 1 (OrderService.cancelOrder 1 sample_db).2
  = Some cancelled /\
  (exists o',
     OrderService.getOrder 1 (OrderService.cancelOrder 1 sample_db).2 = Some o' /\
     Order.status o' = CANCELLED) /\
  (forall j, j <> 1 ->
     OrderService.getOrder j (OrderService.cancelOrder 1 sample_db).2
     = OrderService.getOrder j sample_db).
Proof.
  apply (proj2 (proj2 (cancelOrder_spec sample_db sample_history 1
                         sample_reachable))
           {| Order.id := 1; Order.user_id := 1; Order.product_name := "Laptop";
              Order.amount := 75000; Order.status := PENDING |}).
  - vm_compute. reflexivity.
  - left. reflexivity.
Defined.

(** C8.  In every reachable state [updateOrderStatus id status] returns
    [false] and changes nothing when no order has that id; otherwise,
    whatever the current status and whatever the new one, it returns [true]
    and the database differs from the old one exactly in that the order
    stored under [id] now has the given status, its other fields being
    those it had. *)
Theorem updateOrderStatus_spec db h id status :
  reachable db h ->
  (InMemoryDatabase.findOrderById id db = None ->
   OrderService.updateOrderStatus id status db = (false, db)) /\
  (forall o,
     InMemoryDatabase.findOrderById id db = Some o ->
     let updated :=
       {| Order.id := Order.id o; Order.user_id := Order.user_id o;
          Order.product_name := Order.product_name o;
          Order.amount := Order.amount o; Order.status := status |} in
     OrderService.updateOrderStatus id status db
     = (true, InMemoryDatabase.set_orders
                (<[id := updated]> (InMemoryDatabase.orders_ db)) db) /\
     OrderService.getOrder id (OrderService.updateOrderStatus id status db).2
     = Some updated /\
     (exists o',
        OrderService.getOrder id
          (OrderService.updateOrderStatus id status db).2 = Some o' /\
        Order.status o' = status) /\
     (forall j, j <> id ->
        OrderService.getOrder j (OrderService.updateOrderStatus id status db).2
        = OrderService.getOrder j db)).
Proof.
  intros Hreach. pose proof (reachable_wf _ _ Hreach) as Hwf. split.
  - unfold OrderService.updateOrderStatus. by intros ->.
  - intros o Hfind updated.
    assert (E : OrderService.updateOrderStatus id status db
                = (true, InMemoryDatabase.set_orders
                           (<[id := updated]>
                              (InMemoryDatabase.orders_ db)) db)).
    { unfold OrderService.updateOrderStatus. rewrite Hfind.
      by rewrite (updateOrder_found db id o). }
    assert (Hget : OrderService.getOrder id
                     (OrderService.updateOrderStatus id status db).2
                   = Some updated).
    { rewrite E. unfold OrderService.getOrder, InMemoryDatabase.findOrderById.
      simpl. apply lookup_insert_eq. }
    split; [exact E|]. split; [exact Hget|]. split.
    + exists updated. by split.
    + intros j Hj. rewrite E.
      unfold OrderService.getOrder, InMemoryDatabase.findOrderById. simpl.
      by apply lookup_insert_ne.
Qed.

Lemma updateOrderStatus_spec_witness :
  let updated :=
    {| Order.id := 3; Order.user_id := 1; Order.product_name := "Cable";
       Order.amount := 10; Order.status := PENDING |} in
  OrderService.updateOrderStatus 3 PENDING sample_db
  = (true, InMemoryDatabase.set_orders
             (<[3 := updated]> (InMemoryDatabase.orders_ sample_db))
             sample_db) /\
  OrderService.getOrder 3 (OrderService.updateOrderStatus 3 PENDING sample_db).2
  = Some updated /\
  (exists o',
     OrderService.getOrder 3
       (OrderService.updateOrderStatus 3 PENDING sample_db).2 = Some o' /\
     Order.status o' = PENDING) /\
  (forall j, j <> 3 ->
     OrderService.getOrder j (OrderService.updateOrderStatus 3 PENDING sample_db).2
     = OrderService.getOrder j sample_db).
Proof.
  apply (proj2 (updateOrderStatus_spec sample_db sample_history 3 PENDING
                  sample_reachable)
           {| Order.id := 3; Order.user_id := 1; Order.product_name := "Cable";
              Order.amount := 10; Order.status := CANCELLED |}).
  vm_compute. reflexivity.
Defined.

(** C10.  In every state of the database, a call of [cancelOrder] that
    returns [false] leaves the database exactly as it was; and the call
    does return [false] when the order is unknown and when its status is
    [SHIPPED], [DELIVERED] or [CANCELLED]. *)
Theorem cancelOrder_failure_no_effect db id :
  ((OrderService.cancelOrder id db).1 = false ->
   (OrderService.cancelOrder id db).2 = db) /\
  (InMemoryDatabase.findOrderById id db = None \/
   (exists o, InMemoryDatabase.findOrderById id db = Some o /\
              (Order.status o = SHIPPED \/ Order.status o = DELIVERED \/
               Order.status o = CANCELLED)) ->
   OrderService.cancelOrder id db = (false, db)).
Proof.
  split.
  - unfold OrderService.cancelOrder.
    destruct (InMemoryDatabase.findOrderById id db) as [o|]; [|done].
    destruct (negb (OrderService.canCancel (Order.status o))); [done|].
    unfold InMemoryDatabase.updateOrder.
    destruct (InMemoryDatabase.orders_ db !! _); simpl; [discriminate|done].
  - intros [Hnone | (o & Hfind & Hst)].
    + by apply cancelOrder_unknown.
    + apply (cancelOrder_refused _ _ o); [done|].
      by destruct Hst as [-> | [-> | ->]].
Qed.

Lemma cancelOrder_failure_no_effect_witness :
  (OrderService.cancelOrder 2 sample_db).2 = sample_db /\
  OrderService.cancelOrder 99 sample_db = (false, sample_db).
Proof.
  split.
  - apply (proj1 (cancelOrder_failure_no_effect sample_db 2)).
    vm_compute. reflexivity.
  - apply (proj2 (cancelOrder_failure_no_effect sample_db 99)).
    left. vm_compute. reflexivity.
Defined.

(** ** The user service *)

(** C7.  In every state of the database, hence in every reachable one,
    [userExists id] is [true] exactly when [getUser id] is present: both
    are the same lookup in the store. *)
Theorem userExists_iff_getUser db id :
  UserService.userExists id db = true <-> is_Some (UserService.getUser id db).
Proof.
  unfold UserService.userExists, UserService.getUser.
  destruct (InMemoryDatabase.findUserById id db) as [u|]; split.
  - by eexists.
  - done.
  - discriminate.
  - by intros [u Hu].
Qed.

(** C6.  In every reachable state [deactivateUser id] returns [false] and
    changes nothing when no user has that id; otherwise it returns [true]
    and the database differs from the old one exactly in that the user
    stored under [id] has [is_active = false], its other fields being those
    it had; and a second call on the resulting database returns [true]
    again and leaves it unchanged. *)
Theorem deactivateUser_spec db h id :
  reachable db h ->
  (InMemoryDatabase.findUserById id db = None ->
   UserService.deactivateUser id db = (false, db)) /\
  (forall u,
     InMemoryDatabase.findUserById id db = Some u ->
     let inactive :=
       {| User.id := User.id u; User.name := User.name u;
          User.email := User.email u; User.is_active := false |} in
     let db1 := (UserService.deactivateUser id db).2 in
     UserService.deactivateUser id db
     = (true, InMemoryDatabase.set_users
                (<[id := inactive]> (InMemoryDatabase.users_ db)) db) /\
     UserService.getUser id db1 = Some inactive /\
     (exists u', UserService.getUser id db1 = Some u' /\
                 User.is_active u' = false) /\
     (forall j, j <> id -> UserService.getUser j db1 = UserService.getUser j db) /\
     UserService.deactivateUser id db1 = (true, db1)).
Proof.
  intros Hreach. pose proof (reachable_wf _ _ Hreach) as Hwf.
  split.
  - intros Hnone. unfold UserService.deactivateUser. by rewrite Hnone.
  - intros u Hfind inactive db1.
    assert (E : UserService.deactivateUser id db
                = (true, InMemoryDatabase.set_users
                           (<[id := inactive]>
                              (InMemoryDatabase.users_ db)) db)).
    { unfold UserService.deactivateUser. rewrite Hfind.
      by rewrite (updateUser_found db id u). }
    assert (Hid : User.id u = id).
    { by destruct (wf_users _ Hwf _ _ Hfind). }
    assert (Hfind1 : InMemoryDatabase.findUserById id db1 = Some inactive).
    { subst db1. rewrite E. unfold InMemoryDatabase.findUserById. simpl.
      apply lookup_insert_eq. }
    split; [exact E|]. split; [exact Hfind1|]. split.
    { exists inactive. by split. }
    split.
    { intros j Hj. subst db1. rewrite E.
      unfold UserService.getUser, InMemoryDatabase.findUserById. simpl.
      by apply lookup_insert_ne. }
    unfold UserService.deactivateUser. rewrite Hfind1.
    subst db1. rewrite E. simpl.
    unfold InMemoryDatabase.updateUser. simpl. rewrite Hid.
    rewrite lookup_insert_eq.
    unfold InMemoryDatabase.set_users. simpl.
    rewrite insert_insert_eq. reflexivity.
Qed.

Lemma deactivateUser_spec_witness :
  let inactive :=
    {| User.id := 1; User.name := "Alice"; User.email := "alice@example.com";
       User.is_active := false |} in
  let db1 := (UserService.deactivateUser 1 sample_db).2 in
  UserService.deactivateUser 1 sample_db
  = (true, InMemoryDatabase.set_users
             (<[1 := inactive]> (InMemoryDatabase.users_ sample_db))
             sample_db) /\
  UserService.getUser 1 db1 = Some inactive /\
  (exists u', UserService.getUser 1 db1 = Some u' /\
              User.is_active u' = false) /\
  (forall j, j <> 1 ->
     UserService.getUser j db1 = UserService.getUser j sample_db) /\
  UserService.deactivateUser 1 db1 = (true, db1).
Proof.
  apply (proj2 (deactivateUser_spec sample_db sample_history 1
                  sample_reachable)
           {| User.id := 1; User.name := "Alice";
              User.email := "alice@example.com"; User.is_active := true |}).
  vm_compute. reflexivity.
Defined.

(** C2 (the code departs from its contract).  The contract of [createUser]
    asks for an e-mail that contains an at sign, and [isValidEmail] only
    checks that the e-mail is not empty: on the default-constructed
    database, a non-empty name with the e-mail [invalid-email], which has
    no at sign, is stored and gets id 1 instead of being refused with -1. *)
Theorem createUser_accepts_email_without_at :
  contains_char at_sign "invalid-email" = false /\
  UserService.isValidEmail "invalid-email" = true /\
  (UserService.createUser "John Doe" "invalid-email" InMemoryDatabase.init).1
  = 1 /\
  UserService.getUser 1
    (UserService.createUser "John Doe" "invalid-email" InMemoryDatabase.init).2
  = Some {| User.id := 1; User.name := "John Doe";
            User.email := "invalid-email"; User.is_active := true |}.
Proof. repeat split. Qed.

(** ** The order service: creation *)

Lemma createOrder_valid db user_id product_name amount u :
  UserService.getUser user_id db = Some u ->
  User.is_active u = true ->
  product_name <> EmptyString ->
  PrimFloat.ltb 0 amount = true ->
  OrderService.createOrder user_id product_name amount db
  = InMemoryDatabase.saveOrder
      {| Order.id := 0; Order.user_id := user_id;
         Order.product_name := product_name; Order.amount := amount;
         Order.status := PENDING |} db.
Proof.
  intros Hu Hact Hname Hamt. unfold OrderService.createOrder.
  rewrite Hu, Hact. unfold OrderService.isValidAmount. rewrite Hamt.
  destruct product_name; [done|]. reflexivity.
Qed.

(** C3.  [createOrder] returns -1, and changes nothing, when the user
    service knows no user with [user_id], or that user is not active, or
    [product_name] is empty, or [0 < amount] does not hold (zero, a
    negative amount, or a NaN).  The checks are made in this order, each
    one only when the earlier ones passed; none of them has an effect, so
    the result is the same whichever check fails first.  When all four
    hold in a reachable state, the call returns the value of the order
    counter, which is positive, and the order is stored under that id with
    the given user, product and amount and status [PENDING]; all other
    orders and all users are as before. *)
Theorem createOrder_spec db h user_id product_name amount :
  reachable db h ->
  (UserService.getUser user_id db = None \/
   (exists u, UserService.getUser user_id db = Some u /\
              User.is_active u = false) \/
   product_name = EmptyString \/
   PrimFloat.ltb 0 amount = false ->
   OrderService.createOrder user_id product_name amount db = (-1, db)) /\
  (forall u,
     UserService.getUser user_id db = Some u ->
     User.is_active u = true ->
     product_name <> EmptyString ->
     PrimFloat.ltb 0 amount = true ->
     let r := OrderService.createOrder user_id product_name amount db in
     0 < r.1 /\
     r.1 = InMemoryDatabase.next_order_id_ db /\
     OrderService.getOrder r.1 db = None /\
     OrderService.getOrder r.1 r.2
     = Some {| Order.id := r.1; Order.user_id := user_id;
               Order.product_name := product_name; Order.amount := amount;
               Order.status := PENDING |} /\
     (forall j, j <> r.1 ->
        OrderService.getOrder j r.2 = OrderService.getOrder j db) /\
     InMemoryDatabase.users_ r.2 = InMemoryDatabase.users_ db).
Proof.
  intros Hreach. pose proof (reachable_wf _ _ Hreach) as Hwf. split.
  - unfold OrderService.createOrder.
    intros [Hnone | [(u & Hu & Hact) | [Hname | Hamt]]].
    + by rewrite Hnone.
    + by rewrite Hu, Hact.
    + subst product_name.
      destruct (UserService.getUser user_id db) as [u|]; [|done].
      by destruct (User.is_active u).
    + unfold OrderService.isValidAmount. rewrite Hamt.
      destruct (UserService.getUser user_id db) as [u|]; [|done].
      destruct (User.is_active u); [|done].
      simpl. by rewrite orb_true_r.
  - intros u Hu Hact Hname Hamt r. subst r.
    rewrite (createOrder_valid _ _ _ _ u) by done. simpl.
    destruct Hwf as [_ Ho _ Hos].
    unfold OrderService.getOrder, InMemoryDatabase.findOrderById. simpl.
    repeat split.
    + lia.
    + destruct (InMemoryDatabase.orders_ db !! InMemoryDatabase.next_order_id_ db)
        as [o|] eqn:E; [|done].
      destruct (Hos _ _ E). lia.
    + apply lookup_insert_eq.
    + intros j Hj. by apply lookup_insert_ne.
Qed.

Lemma createOrder_spec_witness :
  let r := OrderService.createOrder 1 "Widget" 100 sample_db in
  0 < r.1 /\
  r.1 = InMemoryDatabase.next_order_id_ sample_db /\
  OrderService.getOrder r.1 sample_db = None /\
  OrderService.getOrder r.1 r.2
  = Some {| Order.id := r.1; Order.user_id := 1;
            Order.product_name := "Widget"; Order.amount := 100;
            Order.status := PENDING |} /\
  (forall j, j <> r.1 ->
     OrderService.getOrder j r.2 = OrderService.getOrder j sample_db) /\
  InMemoryDatabase.users_ r.2 = InMemoryDatabase.users_ sample_db.
Proof.
  apply (proj2 (createOrder_spec sample_db sample_history 1 "Widget" 100
                  sample_reachable) (User.with_id 1 sample_user)).
  - vm_compute. reflexivity.
  - reflexivity.
  - discriminate.
  - vm_compute. reflexivity.
Defined.

(** ** The order service: totals *)

(** The accumulation over the orders of one user adds exactly the amounts
    of those that are not cancelled, in the same order. *)
Lemma fold_add_unless_cancelled user_id (l : list Order.t) : forall acc,
  fold_left OrderService.add_unless_cancelled
    (List.filter (fun order => Order.user_id order =? user_id) l) acc
  = fold_left (fun a o => PrimFloat.add a (Order.amount o))
      (filter (fun o => Order.user_id o = user_id /\ Order.status o <> CANCELLED) l)
      acc.
Proof.
  induction l as [|o l IH]; intros acc; [done|].
  rewrite filter_cons. simpl.
  destruct (Z.eqb_spec (Order.user_id o) user_id) as [Heq|Hne].
  - simpl. unfold OrderService.add_unless_cancelled at 2.
    destruct (OrderStatus_eqb (Order.status o) CANCELLED) eqn:Hst; simpl.
    + apply OrderStatus_eqb_eq in Hst.
      rewrite decide_False by (intros [_ ?]; done). apply IH.
    + assert (Order.status o <> CANCELLED).
      { intros Hc. apply OrderStatus_eqb_eq in Hc. congruence. }
      rewrite decide_True by done. simpl. apply IH.
  - rewrite decide_False by (intros [? _]; done). apply IH.
Qed.

Lemma elem_of_billable_orders user_id db o :
  o ∈ billable_orders user_id db <->
  (exists k, InMemoryDatabase.orders_ db !! k = Some o) /\
  Order.user_id o = user_id /\ Order.status o <> CANCELLED.
Proof.
  unfold billable_orders, InMemoryDatabase.findAllOrders.
  rewrite list_elem_of_filter, list_elem_of_fmap. split.
  - intros [[Hu Hs] ([k o'] & -> & Hin)].
    apply elem_of_map_to_list in Hin. eauto.
  - intros [[k Hk] [Hu Hs]]. split; [done|].
    exists (k, o). split; [done|]. by apply elem_of_map_to_list.
Qed.

(** C5.  [getTotalAmount user_id] is the sum, from 0.0 and in the
    enumeration order of the store, of the amounts of exactly those stored
    orders whose [user_id] matches and whose status is not [CANCELLED].  It
    is 0.0 when the store holds no order of that user.  It is a total
    function of the orders alone: the users of the database play no part,
    so an id that never was a user gets the same answer. *)
Theorem getTotalAmount_spec db user_id :
  OrderService.getTotalAmount user_id db
  = sum_amounts (billable_orders user_id db) /\
  (Forall (fun o => Order.user_id o <> user_id)
          (InMemoryDatabase.findAllOrders db) ->
   OrderService.getTotalAmount user_id db = 0%float) /\
  (forall users,
     OrderService.getTotalAmount user_id (InMemoryDatabase.set_users users db)
     = OrderService.getTotalAmount user_id db).
Proof.
  assert (E : OrderService.getTotalAmount user_id db
              = sum_amounts (billable_orders user_id db)).
  { unfold OrderService.getTotalAmount, InMemoryDatabase.findOrdersByUserId,
      sum_amounts, billable_orders, InMemoryDatabase.findAllOrders.
    apply fold_add_unless_cancelled. }
  split; [exact E|]. split.
  - intros Hnone. rewrite E. unfold billable_orders.
    replace (filter _ (InMemoryDatabase.findAllOrders db)) with (@nil Order.t);
      [done|].
    symmetry. induction Hnone as [|o l Ho _ IH]; [done|].
    rewrite filter_cons, decide_False by (intros [? _]; done). exact IH.
  - reflexivity.
Qed.

Lemma getTotalAmount_spec_witness :
  OrderService.getTotalAmount 2 sample_db = 0%float.
Proof.
  apply (proj1 (proj2 (getTotalAmount_spec sample_db 2))).
  vm_compute. repeat constructor; discriminate.
Defined.

(** ** The store: id assignment and reset *)



(** * Further properties of the store *)

Lemma service_reachable_reachable db :
  service_reachable db -> exists h, reachable db h.
Proof.
  induction 1 as [|db c _ [h Hreach] Hdef].
  - exists []. constructor.
  - destruct c; simpl in *.
    + by apply (createUser_reachable db h).
    + by apply (deactivateUser_reachable db h).
    + by apply (createOrder_reachable db h).
    + by apply (updateOrderStatus_reachable db h).
    + by apply (cancelOrder_reachable db h).
    + eexists. apply (reachable_step db h Clear Hreach I).
Qed.

Lemma service_reachable_wf db : service_reachable db -> wf db.
Proof.
  intros Hs. destruct (service_reachable_reachable _ Hs) as [h Hreach].
  by apply (reachable_wf _ h).
Qed.

Lemma service_sample_reachable : service_reachable service_sample_db.
Proof.
  cbv beta iota delta [service_sample_db sample_calls fold_left].
  repeat (apply service_reachable_step;
          [| vm_compute; first [exact I | reflexivity]]).
  apply service_reachable_init.
Qed.

(** X1.  In every reachable state each user and each order is stored under
    its own [id], the stored ids are positive and below the counter of
    their kind, and both counters lie between 1 and [INT_MAX]. *)
Theorem store_invariant db h :
  reachable db h ->
  (1 <= InMemoryDatabase.next_user_id_ db <= INT_MAX) /\
  (1 <= InMemoryDatabase.next_order_id_ db <= INT_MAX) /\
  (forall k u,
     InMemoryDatabase.findUserById k db = Some u ->
     User.id u = k /\ 1 <= k < InMemoryDatabase.next_user_id_ db) /\
  (forall k o,
     InMemoryDatabase.findOrderById k db = Some o ->
     Order.id o = k /\ 1 <= k < InMemoryDatabase.next_order_id_ db).
Proof.
  intros Hreach. destruct (reachable_wf _ _ Hreach) as [Hu Ho Hus Hos].
  split; [exact Hu|]. split; [exact Ho|]. split.
  - intros k u Hk. exact (Hus k u Hk).
  - intros k o Hk. exact (Hos k o Hk).
Qed.

Lemma store_invariant_witness :
  1 <= InMemoryDatabase.next_order_id_ sample_db <= INT_MAX.
Proof.
  apply (store_invariant sample_db sample_history sample_reachable).
Defined.

Lemma stored_ids_were_issued db h :
  reachable db h ->
  (forall k, is_Some (InMemoryDatabase.users_ db !! k) ->
             k ∈ user_ids_since_clear h) /\
  (forall k, is_Some (InMemoryDatabase.orders_ db !! k) ->
             k ∈ order_ids_since_clear h).
Proof.
  induction 1 as [|db h op Hreach [IHu IHo] Hdef].
  { split; intros k [x Hx]; simpl in Hx; by rewrite lookup_empty in Hx. }
  destruct op; simpl in *.
  - split; [|exact IHo]. intros k. rewrite lookup_insert.
    case_decide as Hk; [subst k; left | right; by apply IHu].
  - unfold InMemoryDatabase.updateUser.
    destruct (InMemoryDatabase.users_ db !! User.id user) eqn:E; simpl;
      [|by split].
    split; [|exact IHo]. intros k. rewrite lookup_insert.
    case_decide as Hk; [subst k; intros _; apply IHu; by rewrite E | apply IHu].
  - unfold InMemoryDatabase.deleteUser.
    destruct (InMemoryDatabase.users_ db !! id) eqn:E; simpl; [|by split].
    split; [|exact IHo]. intros k [x Hx].
    apply lookup_delete_Some in Hx as [_ Hx]. apply IHu. by rewrite Hx.
  - split; [exact IHu|]. intros k. rewrite lookup_insert.
    case_decide as Hk; [subst k; left | right; by apply IHo].
  - unfold InMemoryDatabase.updateOrder.
    destruct (InMemoryDatabase.orders_ db !! Order.id order) eqn:E; simpl;
      [|by split].
    split; [exact IHu|]. intros k. rewrite lookup_insert.
    case_decide as Hk; [subst k; intros _; apply IHo; by rewrite E | apply IHo].
  - unfold InMemoryDatabase.deleteOrder.
    destruct (InMemoryDatabase.orders_ db !! id) eqn:E; simpl; [|by split].
    split; [exact IHu|]. intros k [x Hx].
    apply lookup_delete_Some in Hx as [_ Hx]. apply IHo. by rewrite Hx.
  - split; intros k [x Hx]; by rewrite lookup_empty in Hx.
Qed.

(** X2.  In every reachable state an id that no [saveUser] has returned
    since the last [clear] is unknown: [findUserById] finds nothing and
    [userExists] is [false]; likewise [findOrderById] for an id that no
    [saveOrder] has returned. *)
Theorem never_issued_ids_unknown db h id :
  reachable db h ->
  (id ∉ user_ids_since_clear h ->
   InMemoryDatabase.findUserById id db = None /\
   UserService.userExists id db = false) /\
  (id ∉ order_ids_since_clear h ->
   InMemoryDatabase.findOrderById id db = None).
Proof.
  intros Hreach. destruct (stored_ids_were_issued _ _ Hreach) as [Hu Ho].
  split.
  - intros Hnot.
    assert (E : InMemoryDatabase.findUserById id db = None).
    { unfold InMemoryDatabase.findUserById.
      destruct (InMemoryDatabase.users_ db !! id) eqn:E; [|done].
      destruct Hnot. apply Hu. by rewrite E. }
    split; [done|]. unfold UserService.userExists. by rewrite E.
  - intros Hnot. unfold InMemoryDatabase.findOrderById.
    destruct (InMemoryDatabase.orders_ db !! id) eqn:E; [|done].
    destruct Hnot. apply Ho. by rewrite E.
Qed.

Lemma never_issued_ids_unknown_witness :
  InMemoryDatabase.findOrderById 4 sample_db = None.
Proof.
  apply (proj2 (never_issued_ids_unknown sample_db sample_history 4
                  sample_reachable)).
  vm_compute. intros Hin.
  repeat (apply elem_of_cons in Hin as [Hin | Hin]; [discriminate|]).
  by apply elem_of_nil in Hin.
Defined.

(** X3.  Ids are handed out consecutively from 1: in every reachable state
    the ids returned by [saveUser] since the last [clear] are, oldest
    first, 1, 2, ..., [next_user_id_ - 1]; and the same for [saveOrder]
    with [next_order_id_]. *)
Theorem issued_ids_consecutive db h :
  reachable db h ->
  reverse (user_ids_since_clear h)
  = seqZ 1 (InMemoryDatabase.next_user_id_ db - 1) /\
  reverse (order_ids_since_clear h)
  = seqZ 1 (InMemoryDatabase.next_order_id_ db - 1).
Proof.
  induction 1 as [|db h op Hreach [IHu IHo] Hdef]; [by split|].
  pose proof (reachable_wf _ _ Hreach) as [Hu Ho _ _].
  assert (Hsnoc : forall n, 1 <= n ->
            seqZ 1 (n + 1 - 1) = seqZ 1 (n - 1) ++ [n]).
  { intros n Hn. replace (n + 1 - 1) with ((n - 1) + 1) by lia.
    rewrite seqZ_app by lia. f_equal.
    replace (1 + (n - 1)) with n by lia. reflexivity. }
  destruct op; simpl in *.
  - rewrite int_incr_below_max by (unfold INT_MIN; lia).
    split; [|exact IHo]. rewrite reverse_cons, IHu. by rewrite Hsnoc by lia.
  - unfold InMemoryDatabase.updateUser.
    destruct (InMemoryDatabase.users_ db !! User.id user); by split.
  - unfold InMemoryDatabase.deleteUser.
    destruct (InMemoryDatabase.users_ db !! id); by split.
  - rewrite int_incr_below_max by (unfold INT_MIN; lia).
    split; [exact IHu|]. rewrite reverse_cons, IHo. by rewrite Hsnoc by lia.
  - unfold InMemoryDatabase.updateOrder.
    destruct (InMemoryDatabase.orders_ db !! Order.id order); by split.
  - unfold InMemoryDatabase.deleteOrder.
    destruct (InMemoryDatabase.orders_ db !! id); by split.
  - by split.
Qed.

Lemma issued_ids_consecutive_witness :
  reverse (order_ids_since_clear sample_history)
  = seqZ 1 (InMemoryDatabase.next_order_id_ sample_db - 1).
Proof.
  apply (proj2 (issued_ids_consecutive sample_db sample_history
                  sample_reachable)).
Defined.

(** X4.  [updateUser] never inserts: when no user is stored under the id of
    the record it returns [false] and changes nothing.  Otherwise it returns
    [true], the record is what [findUserById] now returns for that id, and
    every other user, the set of stored ids, all orders and both counters
    are as before. *)
Theorem updateUser_spec db user :
  (InMemoryDatabase.findUserById (User.id user) db = None ->
   InMemoryDatabase.updateUser user db = (false, db)) /\
  (is_Some (InMemoryDatabase.findUserById (User.id user) db) ->
   let r := InMemoryDatabase.updateUser user db in
   r.1 = true /\
   InMemoryDatabase.findUserById (User.id user) r.2 = Some user /\
   (forall j, j <> User.id user ->
      InMemoryDatabase.findUserById j r.2 = InMemoryDatabase.findUserById j db) /\
   dom (InMemoryDatabase.users_ r.2) = dom (InMemoryDatabase.users_ db) /\
   InMemoryDatabase.orders_ r.2 = InMemoryDatabase.orders_ db /\
   InMemoryDatabase.next_user_id_ r.2 = InMemoryDatabase.next_user_id_ db /\
   InMemoryDatabase.next_order_id_ r.2 = InMemoryDatabase.next_order_id_ db).
Proof.
  unfold InMemoryDatabase.updateUser, InMemoryDatabase.findUserById. split.
  - by intros ->.
  - intros [old Hold]. rewrite Hold. simpl. repeat split.
    + apply lookup_insert_eq.
    + intros j Hj. by apply lookup_insert_ne.
    + apply set_eq. intros k. rewrite dom_insert_L, elem_of_union, elem_of_singleton.
      split; [intros [-> | Hk]; [|done] | by right].
      apply elem_of_dom. by rewrite Hold.
Qed.

Lemma updateUser_spec_witness :
  let user := {| User.id := 1; User.name := "Alicia";
                 User.email := "alicia@example.com"; User.is_active := false |} in
  let r := InMemoryDatabase.updateUser user sample_db in
  r.1 = true /\
  InMemoryDatabase.findUserById 1 r.2 = Some user /\
  (forall j, j <> 1 ->
     InMemoryDatabase.findUserById j r.2
     = InMemoryDatabase.findUserById j sample_db) /\
  dom (InMemoryDatabase.users_ r.2) = dom (InMemoryDatabase.users_ sample_db) /\
  InMemoryDatabase.orders_ r.2 = InMemoryDatabase.orders_ sample_db /\
  InMemoryDatabase.next_user_id_ r.2 = InMemoryDatabase.next_user_id_ sample_db /\
  InMemoryDatabase.next_order_id_ r.2 = InMemoryDatabase.next_order_id_ sample_db.
Proof.
  intros user.
  apply (proj2 (updateUser_spec sample_db user)).
  vm_compute. by eexists.
Defined.

(** X5.  [updateOrder] never inserts: when no order is stored under the id
    of the record it returns [false] and changes nothing.  Otherwise it
    returns [true], the record is what [findOrderById] now returns for that
    id, and every other order, the set of stored ids, all users and both
    counters are as before. *)
Theorem updateOrder_spec db order :
  (InMemoryDatabase.findOrderById (Order.id order) db = None ->
   InMemoryDatabase.updateOrder order db = (false, db)) /\
  (is_Some (InMemoryDatabase.findOrderById (Order.id order) db) ->
   let r := InMemoryDatabase.updateOrder order db in
   r.1 = true /\
   InMemoryDatabase.findOrderById (Order.id order) r.2 = Some order /\
   (forall j, j <> Order.id order ->
      InMemoryDatabase.findOrderById j r.2
      = InMemoryDatabase.findOrderById j db) /\
   dom (InMemoryDatabase.orders_ r.2) = dom (InMemoryDatabase.orders_ db) /\
   InMemoryDatabase.users_ r.2 = InMemoryDatabase.users_ db /\
   InMemoryDatabase.next_user_id_ r.2 = InMemoryDatabase.next_user_id_ db /\
   InMemoryDatabase.next_order_id_ r.2 = InMemoryDatabase.next_order_id_ db).
Proof.
  unfold InMemoryDatabase.updateOrder, InMemoryDatabase.findOrderById. split.
  - by intros ->.
  - intros [old Hold]. rewrite Hold. simpl. repeat split.
    + apply lookup_insert_eq.
    + intros j Hj. by apply lookup_insert_ne.
    + apply set_eq. intros k. rewrite dom_insert_L, elem_of_union, elem_of_singleton.
      split; [intros [-> | Hk]; [|done] | by right].
      apply elem_of_dom. by rewrite Hold.
Qed.

Lemma updateOrder_spec_witness :
  InMemoryDatabase.updateOrder (sample_order "Desk" 300) sample_db
  = (false, sample_db).
Proof.
  apply (proj1 (updateOrder_spec sample_db (sample_order "Desk" 300))).
  vm_compute. reflexivity.
Defined.

(** X6.  [deleteUser] returns [false] and changes nothing when no user is
    stored under the id.  Otherwise it returns [true], the id is unknown
    afterwards, every other user is as before, and nothing else moves: the
    orders, including the orders of the deleted user, stay, and the user
    counter is not taken back, so the id is not handed out again. *)
Theorem deleteUser_spec db id :
  (InMemoryDatabase.findUserById id db = None ->
   InMemoryDatabase.deleteUser id db = (false, db)) /\
  (is_Some (InMemoryDatabase.findUserById id db) ->
   let r := InMemoryDatabase.deleteUser id db in
   r.1 = true /\
   InMemoryDatabase.findUserById id r.2 = None /\
   (forall j, j <> id ->
      InMemoryDatabase.findUserById j r.2 = InMemoryDatabase.findUserById j db) /\
   InMemoryDatabase.orders_ r.2 = InMemoryDatabase.orders_ db /\
   InMemoryDatabase.findOrdersByUserId id r.2
   = InMemoryDatabase.findOrdersByUserId id db /\
   InMemoryDatabase.next_user_id_ r.2 = InMemoryDatabase.next_user_id_ db /\
   InMemoryDatabase.next_order_id_ r.2 = InMemoryDatabase.next_order_id_ db).
Proof.
  unfold InMemoryDatabase.deleteUser, InMemoryDatabase.findUserById. split.
  - by intros ->.
  - intros [old Hold]. rewrite Hold. simpl. repeat split.
    + apply lookup_delete_eq.
    + intros j Hj. by apply lookup_delete_ne.
Qed.

Lemma deleteUser_spec_witness :
  let r := InMemoryDatabase.deleteUser 1 sample_db in
  r.1 = true /\
  InMemoryDatabase.findUserById 1 r.2 = None /\
  (forall j, j <> 1 ->
     InMemoryDatabase.findUserById j r.2
     = InMemoryDatabase.findUserById j sample_db) /\
  InMemoryDatabase.orders_ r.2 = InMemoryDatabase.orders_ sample_db /\
  InMemoryDatabase.findOrdersByUserId 1 r.2
  = InMemoryDatabase.findOrdersByUserId 1 sample_db /\
  InMemoryDatabase.next_user_id_ r.2 = InMemoryDatabase.next_user_id_ sample_db /\
  InMemoryDatabase.next_order_id_ r.2 = InMemoryDatabase.next_order_id_ sample_db.
Proof.
  apply (proj2 (deleteUser_spec sample_db 1)).
  vm_compute. by eexists.
Defined.

(** X7.  [deleteOrder] returns [false] and changes nothing when no order is
    stored under the id.  Otherwise it returns [true], the id is unknown
    afterwards, every other order is as before, and the users and both
    counters are untouched. *)
Theorem deleteOrder_spec db id :
  (InMemoryDatabase.findOrderById id db = None ->
   InMemoryDatabase.deleteOrder id db = (false, db)) /\
  (is_Some (InMemoryDatabase.findOrderById id db) ->
   let r := InMemoryDatabase.deleteOrder id db in
   r.1 = true /\
   InMemoryDatabase.findOrderById id r.2 = None /\
   (forall j, j <> id ->
      InMemoryDatabase.findOrderById j r.2
      = InMemoryDatabase.findOrderById j db) /\
   InMemoryDatabase.users_ r.2 = InMemoryDatabase.users_ db /\
   InMemoryDatabase.next_user_id_ r.2 = InMemoryDatabase.next_user_id_ db /\
   InMemoryDatabase.next_order_id_ r.2 = InMemoryDatabase.next_order_id_ db).
Proof.
  unfold InMemoryDatabase.deleteOrder, InMemoryDatabase.findOrderById. split.
  - by intros ->.
  - intros [old Hold]. rewrite Hold. simpl. repeat split.
    + apply lookup_delete_eq.
    + intros j Hj. by apply lookup_delete_ne.
Qed.

Lemma deleteOrder_spec_witness :
  let r := InMemoryDatabase.deleteOrder 2 sample_db in
  r.1 = true /\
  InMemoryDatabase.findOrderById 2 r.2 = None /\
  (forall j, j <> 2 ->
     InMemoryDatabase.findOrderById j r.2
     = InMemoryDatabase.findOrderById j sample_db) /\
  InMemoryDatabase.users_ r.2 = InMemoryDatabase.users_ sample_db /\
  InMemoryDatabase.next_user_id_ r.2 = InMemoryDatabase.next_user_id_ sample_db /\
  InMemoryDatabase.next_order_id_ r.2 = InMemoryDatabase.next_order_id_ sample_db.
Proof.
  apply (proj2 (deleteOrder_spec sample_db 2)).
  vm_compute. by eexists.
Defined.

(** * Further properties of the queries *)

Section Values.
Context {A : Type} (key : A -> Z) (m : gmap Z A).
Hypothesis keyed : forall k x, m !! k = Some x -> key x = k.

(** The values of a map that stores each record under its own key: the
    enumeration lists a record exactly when it is stored, and once. *)
Lemma elem_of_values x :
  x ∈ map snd (map_to_list m) <-> m !! key x = Some x.
Proof using keyed.
  rewrite list_elem_of_fmap. split.
  - intros ([k y] & -> & Hin). apply elem_of_map_to_list in Hin.
    simpl. by rewrite (keyed _ _ Hin).
  - intros Hx. exists (key x, x). split; [done|].
    by apply elem_of_map_to_list.
Qed.

Lemma NoDup_values : NoDup (map snd (map_to_list m)).
Proof using keyed.
  apply NoDup_fmap_2_strong; [|apply NoDup_map_to_list].
  intros [k1 x1] [k2 x2] H1 H2. simpl. intros ->.
  apply elem_of_map_to_list in H1, H2.
  by rewrite <- (keyed _ _ H1), <- (keyed _ _ H2).
Qed.
End Values.

Lemma elem_of_List_filter {A} (f : A -> bool) (l : list A) x :
  x ∈ List.filter f l <-> x ∈ l /\ f x = true.
Proof. rewrite !list_elem_of_In. apply filter_In. Qed.

Lemma NoDup_List_filter {A} (f : A -> bool) (l : list A) :
  NoDup l -> NoDup (List.filter f l).
Proof. rewrite !NoDup_ListNoDup. apply List.NoDup_filter. Qed.

Lemma wf_findAllUsers db :
  wf db ->
  (forall u, u ∈ InMemoryDatabase.findAllUsers db <->
             InMemoryDatabase.findUserById (User.id u) db = Some u) /\
  NoDup (InMemoryDatabase.findAllUsers db).
Proof.
  intros [_ _ Hus _].
  assert (Hku : forall k u, InMemoryDatabase.users_ db !! k = Some u ->
                            User.id u = k).
  { intros k u Hk. by destruct (Hus _ _ Hk). }
  unfold InMemoryDatabase.findAllUsers, InMemoryDatabase.findUserById.
  split; [intros u; by apply elem_of_values | by apply (NoDup_values User.id)].
Qed.

Lemma wf_findAllOrders db :
  wf db ->
  (forall o, o ∈ InMemoryDatabase.findAllOrders db <->
             InMemoryDatabase.findOrderById (Order.id o) db = Some o) /\
  NoDup (InMemoryDatabase.findAllOrders db).
Proof.
  intros [_ _ _ Hos].
  assert (Hko : forall k o, InMemoryDatabase.orders_ db !! k = Some o ->
                            Order.id o = k).
  { intros k o Hk. by destruct (Hos _ _ Hk). }
  unfold InMemoryDatabase.findAllOrders, InMemoryDatabase.findOrderById.
  split; [intros o; by apply elem_of_values | by apply (NoDup_values Order.id)].
Qed.

(** X8.  In every reachable state [findAllUsers] and [findAllOrders] list
    exactly the stored records, each one once: a record is listed exactly
    when the lookup of its own id returns it, and the lists are as long as
    the maps are large. *)
Theorem findAll_spec db h :
  reachable db h ->
  (forall u, u ∈ InMemoryDatabase.findAllUsers db <->
             InMemoryDatabase.findUserById (User.id u) db = Some u) /\
  NoDup (InMemoryDatabase.findAllUsers db) /\
  length (InMemoryDatabase.findAllUsers db) = size (InMemoryDatabase.users_ db) /\
  (forall o, o ∈ InMemoryDatabase.findAllOrders db <->
             InMemoryDatabase.findOrderById (Order.id o) db = Some o) /\
  NoDup (InMemoryDatabase.findAllOrders db) /\
  length (InMemoryDatabase.findAllOrders db) = size (InMemoryDatabase.orders_ db).
Proof.
  intros Hreach. pose proof (reachable_wf _ _ Hreach) as Hwf.
  destruct (wf_findAllUsers _ Hwf) as [Hinu Hndu].
  destruct (wf_findAllOrders _ Hwf) as [Hino Hndo].
  split; [exact Hinu|]. split; [exact Hndu|]. split.
  { unfold InMemoryDatabase.findAllUsers.
    by rewrite length_map, length_map_to_list. }
  split; [exact Hino|]. split; [exact Hndo|].
  unfold InMemoryDatabase.findAllOrders.
  by rewrite length_map, length_map_to_list.
Qed.

Lemma findAll_spec_witness :
  length (InMemoryDatabase.findAllOrders sample_db)
  = size (InMemoryDatabase.orders_ sample_db).
Proof.
  apply (findAll_spec sample_db sample_history sample_reachable).
Defined.

(** X9.  In every reachable state [getActiveUsers] lists exactly the stored
    users whose [is_active] flag is set, each one once. *)
Theorem getActiveUsers_spec db h :
  reachable db h ->
  (forall u, u ∈ UserService.getActiveUsers db <->
             UserService.getUser (User.id u) db = Some u /\
             User.is_active u = true) /\
  NoDup (UserService.getActiveUsers db).
Proof.
  intros Hreach.
  destruct (wf_findAllUsers _ (reachable_wf _ _ Hreach)) as [Hin Hnd].
  unfold UserService.getActiveUsers, UserService.getUser. split.
  - intros u. rewrite elem_of_List_filter. by rewrite Hin.
  - by apply NoDup_List_filter.
Qed.

Lemma getActiveUsers_spec_witness : NoDup (UserService.getActiveUsers sample_db).
Proof.
  apply (getActiveUsers_spec sample_db sample_history sample_reachable).
Defined.

(** X10.  In every reachable state [getUserOrders user_id] lists exactly
    the stored orders whose [user_id] is the given one, whatever their
    status, each one once; it asks nothing of the user, so an id that is no
    user's simply has the orders stored for it, usually none. *)
Theorem getUserOrders_spec db h user_id :
  reachable db h ->
  (forall o, o ∈ OrderService.getUserOrders user_id db <->
             OrderService.getOrder (Order.id o) db = Some o /\
             Order.user_id o = user_id) /\
  NoDup (OrderService.getUserOrders user_id db).
Proof.
  intros Hreach.
  destruct (wf_findAllOrders _ (reachable_wf _ _ Hreach)) as [Hin Hnd].
  unfold OrderService.getUserOrders, OrderService.getOrder,
    InMemoryDatabase.findOrdersByUserId.
  fold (InMemoryDatabase.findAllOrders db). split.
  - intros o. rewrite elem_of_List_filter, Hin.
    by rewrite Z.eqb_eq.
  - by apply NoDup_List_filter.
Qed.

Lemma getUserOrders_spec_witness :
  NoDup (OrderService.getUserOrders 1 sample_db).
Proof.
  apply (getUserOrders_spec sample_db sample_history 1 sample_reachable).
Defined.

(** * Further properties of the user service *)

(** X11.  [createUser] returns -1 and changes nothing when the name or the
    e-mail is empty.  With both non-empty, in a reachable state, it returns
    the value of the user counter, which is positive and was no user's id;
    [getUser] on that id then gives the name and e-mail as passed, with
    [is_active] set; every other user and all orders are as before. *)
Theorem createUser_spec db h name email :
  reachable db h ->
  (name = EmptyString \/ email = EmptyString ->
   UserService.createUser name email db = (-1, db)) /\
  (name <> EmptyString -> email <> EmptyString ->
   let r := UserService.createUser name email db in
   0 < r.1 /\
   r.1 = InMemoryDatabase.next_user_id_ db /\
   UserService.getUser r.1 db = None /\
   UserService.getUser r.1 r.2
   = Some {| User.id := r.1; User.name := name; User.email := email;
             User.is_active := true |} /\
   (forall j, j <> r.1 ->
      UserService.getUser j r.2 = UserService.getUser j db) /\
   InMemoryDatabase.orders_ r.2 = InMemoryDatabase.orders_ db /\
   InMemoryDatabase.next_order_id_ r.2 = InMemoryDatabase.next_order_id_ db).
Proof.
  intros Hreach. destruct (reachable_wf _ _ Hreach) as [Hu _ Hus _].
  unfold UserService.createUser. split.
  - intros [-> | ->]; [done|]. by destruct name.
  - intros Hname Hemail.
    destruct name as [|a name]; [done|]. destruct email as [|b email]; [done|].
    simpl. unfold UserService.getUser, InMemoryDatabase.findUserById. simpl.
    repeat split.
    + lia.
    + destruct (InMemoryDatabase.users_ db !! InMemoryDatabase.next_user_id_ db)
        as [u|] eqn:E; [|done].
      destruct (Hus _ _ E). lia.
    + apply lookup_insert_eq.
    + intros j Hj. by apply lookup_insert_ne.
Qed.

Lemma createUser_spec_witness :
  let r := UserService.createUser "Bob" "bob" sample_db in
  0 < r.1 /\
  r.1 = InMemoryDatabase.next_user_id_ sample_db /\
  UserService.getUser r.1 sample_db = None /\
  UserService.getUser r.1 r.2
  = Some {| User.id := r.1; User.name := "Bob"; User.email := "bob";
            User.is_active := true |} /\
  (forall j, j <> r.1 ->
     UserService.getUser j r.2 = UserService.getUser j sample_db) /\
  InMemoryDatabase.orders_ r.2 = InMemoryDatabase.orders_ sample_db /\
  InMemoryDatabase.next_order_id_ r.2 = InMemoryDatabase.next_order_id_ sample_db.
Proof.
  apply (proj2 (createUser_spec sample_db sample_history "Bob" "bob"
                  sample_reachable)); discriminate.
Defined.

(** X12.  In every reachable state, deactivating a stored user takes
    exactly that user off the list of active users: afterwards a user is
    listed by [getActiveUsers] exactly when it was listed before and its id
    is not the deactivated one. *)
Theorem deactivateUser_getActiveUsers db h id u :
  reachable db h ->
  UserService.getUser id db = Some u ->
  forall v,
    v ∈ UserService.getActiveUsers (UserService.deactivateUser id db).2 <->
    v ∈ UserService.getActiveUsers db /\ User.id v <> id.
Proof.
  intros Hreach Hu v. pose proof (reachable_wf _ _ Hreach) as Hwf.
  destruct (deactivateUser_reachable db h id Hreach) as [h1 Hreach1].
  pose proof (reachable_wf _ _ Hreach1) as Hwf1.
  destruct (wf_findAllUsers _ Hwf) as [Hin _].
  destruct (wf_findAllUsers _ Hwf1) as [Hin1 _].
  unfold UserService.getActiveUsers.
  rewrite !elem_of_List_filter, Hin, Hin1.
  unfold UserService.getUser in Hu.
  assert (Hid : User.id u = id).
  { unfold InMemoryDatabase.findUserById in Hu. by destruct (wf_users _ Hwf _ _ Hu). }
  unfold UserService.deactivateUser. rewrite Hu.
  rewrite (updateUser_found db id u) by done. simpl.
  unfold InMemoryDatabase.findUserById. simpl.
  rewrite lookup_insert. case_decide as Hk.
  - split.
    + intros [[= <-] Hact]. simpl in Hact. discriminate.
    + intros [_ Hne]. by destruct Hne.
  - split.
    + intros [Hv Hact]. by repeat split.
    + intros [[Hv Hact] _]. by split.
Qed.

Lemma deactivateUser_getActiveUsers_witness :
  let v := User.with_id 1 sample_user in
  v ∈ UserService.getActiveUsers (UserService.deactivateUser 1 sample_db).2 <->
  v ∈ UserService.getActiveUsers sample_db /\ User.id v <> 1.
Proof.
  intros v.
  apply (deactivateUser_getActiveUsers sample_db sample_history 1
           (User.with_id 1 sample_user) sample_reachable).
  vm_compute. reflexivity.
Defined.

(** X13.  In every reachable state, once a stored user has been
    deactivated, [createOrder] for that user returns -1 whatever the
    product and amount, and neither the deactivation nor the refused
    creation touches the orders: those the user already had are still
    there, unchanged. *)
Theorem createOrder_after_deactivateUser db h id u product_name amount :
  reachable db h ->
  UserService.getUser id db = Some u ->
  let db1 := (UserService.deactivateUser id db).2 in
  OrderService.createOrder id product_name amount db1 = (-1, db1) /\
  InMemoryDatabase.orders_ db1 = InMemoryDatabase.orders_ db /\
  OrderService.getUserOrders id db1 = OrderService.getUserOrders id db.
Proof.
  intros Hreach Hu db1. pose proof (reachable_wf _ _ Hreach) as Hwf.
  subst db1. unfold UserService.getUser in Hu.
  unfold UserService.deactivateUser. rewrite Hu.
  rewrite (updateUser_found db id u) by done. simpl.
  split; [|done].
  unfold OrderService.createOrder, UserService.getUser,
    InMemoryDatabase.findUserById. simpl.
  by rewrite lookup_insert_eq.
Qed.

Lemma createOrder_after_deactivateUser_witness :
  let db1 := (UserService.deactivateUser 1 sample_db).2 in
  OrderService.createOrder 1 "Widget" 100 db1 = (-1, db1) /\
  InMemoryDatabase.orders_ db1 = InMemoryDatabase.orders_ sample_db /\
  OrderService.getUserOrders 1 db1 = OrderService.getUserOrders 1 sample_db.
Proof.
  apply (createOrder_after_deactivateUser sample_db sample_history 1
           (User.with_id 1 sample_user) "Widget" 100 sample_reachable).
  vm_compute. reflexivity.
Defined.

(** * Further properties of the order service *)

Lemma List_filter_Permutation {A} (f : A -> bool) (l l' : list A) :
  l ≡ₚ l' -> List.filter f l ≡ₚ List.filter f l'.
Proof.
  induction 1 as [|x l l' _ IH|x y l|l l' l'' _ IH1 _ IH2]; simpl.
  - done.
  - destruct (f x); [by constructor | done].
  - destruct (f x), (f y); try done. apply perm_swap.
  - by etrans.
Qed.

(** X14.  In every reachable state an accepted [createOrder] adds exactly
    the new order to the orders of its user: [getUserOrders] of that user
    afterwards is, up to the order of enumeration, the new order together
    with the former list; and the list of any other user holds the same
    orders as before. *)
Theorem createOrder_getUserOrders db h user_id product_name amount u :
  reachable db h ->
  UserService.getUser user_id db = Some u ->
  User.is_active u = true ->
  product_name <> EmptyString ->
  PrimFloat.ltb 0 amount = true ->
  let r := OrderService.createOrder user_id product_name amount db in
  OrderService.getUserOrders user_id r.2
  ≡ₚ {| Order.id := r.1; Order.user_id := user_id;
        Order.product_name := product_name; Order.amount := amount;
        Order.status := PENDING |} :: OrderService.getUserOrders user_id db /\
  (forall other, other <> user_id ->
     OrderService.getUserOrders other r.2
     ≡ₚ OrderService.getUserOrders other db).
Proof.
  intros Hreach Hu Hact Hname Hamt r. subst r.
  destruct (reachable_wf _ _ Hreach) as [_ Ho _ Hos].
  rewrite (createOrder_valid _ _ _ _ u) by done. simpl.
  unfold OrderService.getUserOrders, InMemoryDatabase.findOrdersByUserId. simpl.
  assert (Hfresh : InMemoryDatabase.orders_ db
                     !! InMemoryDatabase.next_order_id_ db = None).
  { destruct (InMemoryDatabase.orders_ db !! InMemoryDatabase.next_order_id_ db)
      as [o|] eqn:E; [|done].
    destruct (Hos _ _ E). lia. }
  pose proof (map_to_list_insert (InMemoryDatabase.orders_ db) _
    (Order.with_id (InMemoryDatabase.next_order_id_ db)
       {| Order.id := 0; Order.user_id := user_id;
          Order.product_name := product_name; Order.amount := amount;
          Order.status := PENDING |}) Hfresh) as Hperm.
  split.
  - rewrite (List_filter_Permutation _ _ _ (Permutation_map snd Hperm)).
    simpl. by rewrite Z.eqb_refl.
  - intros other Hother.
    rewrite (List_filter_Permutation _ _ _ (Permutation_map snd Hperm)).
    simpl. destruct (Z.eqb_spec user_id other); [congruence|done].
Qed.

Lemma createOrder_getUserOrders_witness :
  let r := OrderService.createOrder 1 "Widget" 100 sample_db in
  OrderService.getUserOrders 1 r.2
  ≡ₚ {| Order.id := r.1; Order.user_id := 1;
        Order.product_name := "Widget"; Order.amount := 100;
        Order.status := PENDING |} :: OrderService.getUserOrders 1 sample_db /\
  (forall other, other <> 1 ->
     OrderService.getUserOrders other r.2
     ≡ₚ OrderService.getUserOrders other sample_db).
Proof.
  apply (createOrder_getUserOrders sample_db sample_history 1 "Widget" 100
           (User.with_id 1 sample_user) sample_reachable).
  - vm_compute. reflexivity.
  - reflexivity.
  - discriminate.
  - vm_compute. reflexivity.
Defined.

(** X15.  In every reachable state, whether a stored order can be cancelled
    depends only on the status it was last given.  After
    [updateOrderStatus id status] with [status] one of [PENDING] and
    [CONFIRMED], [cancelOrder id] returns [true] and the order is
    [CANCELLED]; with [status] one of [SHIPPED], [DELIVERED] and
    [CANCELLED] it returns [false] and the order keeps that status.  The
    other fields of the order are those it had at the start. *)
Theorem cancelOrder_after_updateOrderStatus db h id o status :
  reachable db h ->
  OrderService.getOrder id db = Some o ->
  let db1 := (OrderService.updateOrderStatus id status db).2 in
  let r := OrderService.cancelOrder id db1 in
  (status = PENDING \/ status = CONFIRMED ->
   r.1 = true /\
   OrderService.getOrder id r.2
   = Some {| Order.id := Order.id o; Order.user_id := Order.user_id o;
             Order.product_name := Order.product_name o;
             Order.amount := Order.amount o; Order.status := CANCELLED |}) /\
  (status = SHIPPED \/ status = DELIVERED \/ status = CANCELLED ->
   r.1 = false /\
   r.2 = db1 /\
   OrderService.getOrder id r.2
   = Some {| Order.id := Order.id o; Order.user_id := Order.user_id o;
             Order.product_name := Order.product_name o;
             Order.amount := Order.amount o; Order.status := status |}).
Proof.
  intros Hreach Ho db1 r.
  pose proof (reachable_wf _ _ Hreach) as Hwf.
  destruct (updateOrderStatus_reachable db h id status Hreach) as [h1 Hreach1].
  fold db1 in Hreach1. pose proof (reachable_wf _ _ Hreach1) as Hwf1.
  unfold OrderService.getOrder in *.
  assert (E1 : InMemoryDatabase.findOrderById id db1
               = Some {| Order.id := Order.id o;
                         Order.user_id := Order.user_id o;
                         Order.product_name := Order.product_name o;
                         Order.amount := Order.amount o;
                         Order.status := status |}).
  { subst db1. unfold OrderService.updateOrderStatus. rewrite Ho.
    rewrite (updateOrder_found db id o) by done.
    unfold InMemoryDatabase.findOrderById. simpl. apply lookup_insert_eq. }
  split.
  - intros Hst. apply canCancel_true in Hst.
    assert (E : r = (true, InMemoryDatabase.set_orders
                             (<[id := {| Order.id := Order.id o;
                                         Order.user_id := Order.user_id o;
                                         Order.product_name := Order.product_name o;
                                         Order.amount := Order.amount o;
                                         Order.status := CANCELLED |}]>
                                (InMemoryDatabase.orders_ db1)) db1)).
    { subst r. unfold OrderService.cancelOrder. rewrite E1. simpl.
      rewrite Hst. simpl.
      by rewrite (updateOrder_found db1 id _ _ Hwf1 E1). }
    rewrite E. split; [done|].
    unfold InMemoryDatabase.findOrderById. simpl. apply lookup_insert_eq.
  - intros Hst.
    assert (E : r = (false, db1)).
    { subst r. apply (cancelOrder_refused _ _ _ E1). simpl.
      by destruct Hst as [-> | [-> | ->]]. }
    rewrite E. by repeat split.
Qed.

Lemma cancelOrder_after_updateOrderStatus_witness :
  let o := {| Order.id := 1; Order.user_id := 1;
              Order.product_name := "Laptop"; Order.amount := 75000;
              Order.status := PENDING |} in
  let confirmed := (OrderService.updateOrderStatus 1 CONFIRMED sample_db).2 in
  let delivered := (OrderService.updateOrderStatus 1 DELIVERED sample_db).2 in
  ((OrderService.cancelOrder 1 confirmed).1 = true /\
   OrderService.getOrder 1 (OrderService.cancelOrder 1 confirmed).2
   = Some {| Order.id := 1; Order.user_id := 1;
             Order.product_name := "Laptop"; Order.amount := 75000;
             Order.status := CANCELLED |}) /\
  ((OrderService.cancelOrder 1 delivered).1 = false /\
   (OrderService.cancelOrder 1 delivered).2 = delivered /\
   OrderService.getOrder 1 (OrderService.cancelOrder 1 delivered).2
   = Some {| Order.id := 1; Order.user_id := 1;
             Order.product_name := "Laptop"; Order.amount := 75000;
             Order.status := DELIVERED |}).
Proof.
  intros o confirmed delivered. split.
  - apply (proj1 (cancelOrder_after_updateOrderStatus sample_db sample_history
                    1 o CONFIRMED sample_reachable eq_refl)).
    right. reflexivity.
  - apply (proj2 (cancelOrder_after_updateOrderStatus sample_db sample_history
                    1 o DELIVERED sample_reachable eq_refl)).
    right. left. reflexivity.
Defined.

(** X16.  In every reachable state [cancelOrder] never succeeds twice in a
    row on one id: whatever the first call did, a second call on the
    resulting database returns [false] and changes nothing. *)
Theorem cancelOrder_twice db h id :
  reachable db h ->
  let db1 := (OrderService.cancelOrder id db).2 in
  OrderService.cancelOrder id db1 = (false, db1).
Proof.
  intros Hreach db1. subst db1.
  pose proof (reachable_wf _ _ Hreach) as Hwf.
  destruct (InMemoryDatabase.findOrderById id db) as [o|] eqn:Ho.
  - destruct (OrderService.canCancel (Order.status o)) eqn:Hcan.
    + assert (E : OrderService.cancelOrder id db
                  = (true, InMemoryDatabase.set_orders
                             (<[id := Order.with_status CANCELLED o]>
                                (InMemoryDatabase.orders_ db)) db)).
      { unfold OrderService.cancelOrder. rewrite Ho, Hcan. simpl.
        by apply (updateOrder_found db id o). }
      rewrite E. simpl.
      apply (cancelOrder_refused _ _ (Order.with_status CANCELLED o)); [|done].
      unfold InMemoryDatabase.findOrderById. simpl. apply lookup_insert_eq.
    + rewrite (cancelOrder_refused _ _ o Ho Hcan). simpl.
      by apply (cancelOrder_refused _ _ o).
  - rewrite (cancelOrder_unknown _ _ Ho). simpl. by apply cancelOrder_unknown.
Qed.

Lemma cancelOrder_twice_witness :
  let db1 := (OrderService.cancelOrder 1 sample_db).2 in
  OrderService.cancelOrder 1 db1 = (false, db1).
Proof.
  apply (cancelOrder_twice sample_db sample_history 1 sample_reachable).
Defined.

(** X17.  Orders that are [CANCELLED] do not count: when every stored order
    of a user is [CANCELLED], [getTotalAmount] of that user is 0.0. *)
Theorem getTotalAmount_all_cancelled db user_id :
  Forall (fun o => Order.status o = CANCELLED)
         (OrderService.getUserOrders user_id db) ->
  OrderService.getTotalAmount user_id db = 0%float.
Proof.
  unfold OrderService.getTotalAmount, OrderService.getUserOrders.
  generalize (InMemoryDatabase.findOrdersByUserId user_id db).
  intros l Hl. induction Hl as [|o l Ho _ IH]; [done|].
  simpl. unfold OrderService.add_unless_cancelled at 2.
  rewrite Ho. simpl. exact IH.
Qed.

Lemma getTotalAmount_all_cancelled_witness :
  OrderService.getTotalAmount 1
    (OrderService.updateOrderStatus 1 CANCELLED
       (OrderService.updateOrderStatus 2 CANCELLED sample_db).2).2
  = 0%float.
Proof.
  apply getTotalAmount_all_cancelled.
  vm_compute. repeat constructor.
Defined.

(** X18.  After [clear], whatever the database held, every query reports an
    empty system: no user and no order is found under any id, no user is
    active, no user has orders, and every total is 0.0. *)
Theorem queries_after_clear db id :
  let db0 := InMemoryDatabase.clear db in
  UserService.getUser id db0 = None /\
  UserService.userExists id db0 = false /\
  UserService.getActiveUsers db0 = [] /\
  OrderService.getOrder id db0 = None /\
  OrderService.getUserOrders id db0 = [] /\
  OrderService.getTotalAmount id db0 = 0%float /\
  InMemoryDatabase.findAllUsers db0 = [] /\
  InMemoryDatabase.findAllOrders db0 = [].
Proof.
  simpl.
  unfold UserService.getUser, UserService.userExists,
    UserService.getActiveUsers, OrderService.getOrder,
    OrderService.getUserOrders, OrderService.getTotalAmount,
    InMemoryDatabase.findOrdersByUserId, InMemoryDatabase.findAllUsers,
    InMemoryDatabase.findAllOrders, InMemoryDatabase.findUserById,
    InMemoryDatabase.findOrderById, InMemoryDatabase.clear. simpl.
  rewrite !lookup_empty, !map_to_list_empty. by repeat split.
Qed.

(** * Properties of executions through the services *)

Lemma valid_records_call c db :
  wf db -> valid_records db -> valid_records (call c db).
Proof.
  intros Hwf [Hvu Hvo].
  destruct c as [name email|id|user_id product_name amount|id status|id|];
    simpl.
  - unfold UserService.createUser.
    destruct name as [|a name]; [by split|].
    destruct email as [|b email]; [by split|].
    simpl. split; simpl.
    + intros k u. rewrite lookup_insert. case_decide as Hk.
      * intros [= <-]. by split.
      * apply Hvu.
    + intros k o Hk. destruct (Hvo _ _ Hk) as (Hsome & Hp & Ha).
      split; [|done]. rewrite lookup_insert. case_decide; [by eexists|done].
  - unfold UserService.deactivateUser.
    destruct (InMemoryDatabase.findUserById id db) as [u|] eqn:Hu; [|by split].
    rewrite (updateUser_found db id u) by done.
    split; simpl.
    + intros k v. rewrite lookup_insert. case_decide as Hk.
      * intros [= <-]. simpl. by apply (Hvu id).
      * apply Hvu.
    + intros k o Hk. destruct (Hvo _ _ Hk) as (Hsome & Hp & Ha).
      split; [|done]. rewrite lookup_insert. case_decide; [by eexists|done].
  - unfold OrderService.createOrder, UserService.getUser.
    destruct (InMemoryDatabase.findUserById user_id db) as [u|] eqn:Hu;
      [|by split].
    destruct (User.is_active u); [|by split]. simpl.
    destruct product_name as [|a product_name]; [by split|]. simpl.
    destruct (OrderService.isValidAmount amount) eqn:Ha; [|by split].
    simpl. split; simpl; [exact Hvu|].
    intros k o. rewrite lookup_insert. case_decide as Hk.
    + intros [= <-]. simpl. split; [by eexists|]. by split.
    + apply Hvo.
  - unfold OrderService.updateOrderStatus.
    destruct (InMemoryDatabase.findOrderById id db) as [o|] eqn:Ho; [|by split].
    rewrite (updateOrder_found db id o) by done.
    split; simpl; [exact Hvu|].
    intros k o'. rewrite lookup_insert. case_decide as Hk.
    + intros [= <-]. simpl. by apply (Hvo id).
    + apply Hvo.
  - unfold OrderService.cancelOrder.
    destruct (InMemoryDatabase.findOrderById id db) as [o|] eqn:Ho; [|by split].
    destruct (negb _); [by split|].
    rewrite (updateOrder_found db id o) by done.
    split; simpl; [exact Hvu|].
    intros k o'. rewrite lookup_insert. case_decide as Hk.
    + intros [= <-]. simpl. by apply (Hvo id).
    + apply Hvo.
  - split; simpl; intros k x Hk; by rewrite lookup_empty in Hk.
Qed.

(** X19.  In every state reached through the services, each stored user
    has a non-empty name and a non-empty e-mail, and each stored order has
    a non-empty product name, an amount greater than zero and a [user_id]
    under which a user is stored: the validation of [createUser] and
    [createOrder] is never undone by a later call. *)
Theorem service_records_valid db :
  service_reachable db ->
  (forall id u,
     UserService.getUser id db = Some u ->
     User.name u <> EmptyString /\ User.email u <> EmptyString) /\
  (forall id o,
     OrderService.getOrder id db = Some o ->
     UserService.userExists (Order.user_id o) db = true /\
     Order.product_name o <> EmptyString /\
     PrimFloat.ltb 0 (Order.amount o) = true).
Proof.
  intros Hs.
  assert (Hv : valid_records db).
  { induction Hs as [|db c Hs IH Hdef].
    - split; simpl; intros k x Hk; by rewrite lookup_empty in Hk.
    - apply valid_records_call; [by apply service_reachable_wf | exact IH]. }
  destruct Hv as [Hvu Hvo]. split.
  - exact Hvu.
  - intros id o Ho. destruct (Hvo _ _ Ho) as ([u Hu] & Hp & Ha).
    split; [|done].
    unfold UserService.userExists, InMemoryDatabase.findUserById. by rewrite Hu.
Qed.

Lemma service_records_valid_witness :
  let o := {| Order.id := 2; Order.user_id := 1; Order.product_name := "Mouse";
              Order.amount := 2500; Order.status := CANCELLED |} in
  UserService.userExists (Order.user_id o) service_sample_db = true /\
  Order.product_name o <> EmptyString /\
  PrimFloat.ltb 0 (Order.amount o) = true.
Proof.
  intros o.
  apply (proj2 (service_records_valid service_sample_db
                  service_sample_reachable) 2 o).
  vm_compute. reflexivity.
Defined.

(** X20.  Deactivation is one-way and users are never removed or rewritten
    by the services: in a state reached through the services, after any
    service call a stored user is still stored under its id, either exactly
    as it was or with [is_active] turned to [false]. *)
Theorem service_call_keeps_users db c id u :
  service_reachable db ->
  c <> ClearDatabase ->
  UserService.getUser id db = Some u ->
  UserService.getUser id (call c db) = Some u \/
  UserService.getUser id (call c db) = Some (User.with_is_active false u).
Proof.
  intros Hs Hc Hu. pose proof (service_reachable_wf _ Hs) as Hwf.
  unfold UserService.getUser in *.
  destruct c as [name email|id'|user_id product_name amount|id' status|id'|];
    simpl; [| | | | |done].
  - left. unfold UserService.createUser.
    destruct (negb _ || negb _); [done|]. simpl.
    unfold InMemoryDatabase.findUserById in *. simpl.
    rewrite lookup_insert_ne; [done|].
    destruct (wf_users _ Hwf _ _ Hu). lia.
  - unfold UserService.deactivateUser.
    destruct (InMemoryDatabase.findUserById id' db) as [v|] eqn:Hv; [|by left].
    rewrite (updateUser_found db id' v) by done.
    unfold InMemoryDatabase.findUserById in *. simpl.
    rewrite lookup_insert. case_decide as Hk; [|by left].
    subst id'. right. congruence.
  - left. unfold OrderService.createOrder.
    destruct (UserService.getUser user_id db) as [v|]; [|done].
    destruct (negb (User.is_active v)); [done|].
    by destruct (negb _ || negb _).
  - left. unfold OrderService.updateOrderStatus.
    destruct (InMemoryDatabase.findOrderById id' db) as [o|] eqn:Ho; [|done].
    by rewrite (updateOrder_found db id' o).
  - left. unfold OrderService.cancelOrder.
    destruct (InMemoryDatabase.findOrderById id' db) as [o|] eqn:Ho; [|done].
    destruct (negb _); [done|].
    by rewrite (updateOrder_found db id' o).
Qed.

Lemma service_call_keeps_users_witness :
  let u := {| User.id := 1; User.name := "Alice";
              User.email := "alice@example.com"; User.is_active := true |} in
  UserService.getUser 1 (call (DeactivateUser 1) service_sample_db) = Some u \/
  UserService.getUser 1 (call (DeactivateUser 1) service_sample_db)
  = Some (User.with_is_active false u).
Proof.
  intros u.
  apply (service_call_keeps_users service_sample_db (DeactivateUser 1) 1 u
           service_sample_reachable).
  - discriminate.
  - vm_compute. reflexivity.
Defined.

(** X21.  The services change nothing of an order but its status, and never
    remove one: in a state reached through the services, after any service
    call a stored order is still stored under its id with the same [id],
    [user_id], [product_name] and [amount]. *)
Theorem service_call_keeps_orders db c id o :
  service_reachable db ->
  c <> ClearDatabase ->
  OrderService.getOrder id db = Some o ->
  exists status,
    OrderService.getOrder id (call c db) = Some (Order.with_status status o).
Proof.
  intros Hs Hc Ho. pose proof (service_reachable_wf _ Hs) as Hwf.
  unfold OrderService.getOrder in *.
  assert (Hsame : Order.with_status (Order.status o) o = o) by by destruct o.
  assert (Hkeep : forall db', InMemoryDatabase.findOrderById id db' = Some o ->
            exists status, InMemoryDatabase.findOrderById id db'
                           = Some (Order.with_status status o)).
  { intros db' H'. exists (Order.status o). by rewrite Hsame. }
  assert (Hupd : forall id' o' s,
            InMemoryDatabase.findOrderById id' db = Some o' ->
            exists status,
              InMemoryDatabase.findOrderById id
                (InMemoryDatabase.updateOrder (Order.with_status s o') db).2
              = Some (Order.with_status status o)).
  { intros id' o' s Ho'. rewrite (updateOrder_found db id' o') by done.
    unfold InMemoryDatabase.findOrderById in *. simpl.
    rewrite lookup_insert. case_decide as Hk.
    - subst id'. exists s. congruence.
    - exists (Order.status o). by rewrite Hsame. }
  destruct c as [name email|id'|user_id product_name amount|id' status|id'|];
    simpl; [| | | | |done].
  - apply Hkeep. unfold UserService.createUser.
    by destruct (negb _ || negb _).
  - apply Hkeep. unfold UserService.deactivateUser.
    destruct (InMemoryDatabase.findUserById id' db) as [v|] eqn:Hv; [|done].
    by rewrite (updateUser_found db id' v).
  - apply Hkeep. unfold OrderService.createOrder.
    destruct (UserService.getUser user_id db) as [v|]; [|done].
    destruct (negb (User.is_active v)); [done|].
    destruct (negb _ || negb _); [done|]. simpl.
    unfold InMemoryDatabase.findOrderById in *. simpl.
    rewrite lookup_insert_ne; [done|].
    destruct (wf_orders _ Hwf _ _ Ho). lia.
  - unfold OrderService.updateOrderStatus.
    destruct (InMemoryDatabase.findOrderById id' db) as [o'|] eqn:Ho';
      [|by apply Hkeep].
    by apply (Hupd id').
  - unfold OrderService.cancelOrder.
    destruct (InMemoryDatabase.findOrderById id' db) as [o'|] eqn:Ho';
      [|by apply Hkeep].
    destruct (negb _); [by apply Hkeep|].
    by apply (Hupd id').
Qed.

Lemma service_call_keeps_orders_witness :
  exists status,
    OrderService.getOrder 1 (call (CancelOrder 1) service_sample_db)
    = Some (Order.with_status status
              {| Order.id := 1; Order.user_id := 1;
                 Order.product_name := "Laptop"; Order.amount := 75000;
                 Order.status := PENDING |}).
Proof.
  apply (service_call_keeps_orders service_sample_db (CancelOrder 1) 1 _
           service_sample_reachable).
  - discriminate.
  - vm_compute. reflexivity.
Defined.

(** X22.  In every reachable state an accepted [createUser] adds exactly
    the new user to the active users: [getActiveUsers] afterwards is, up to
    the order of enumeration, the new user together with the former list. *)
Theorem createUser_getActiveUsers db h name email :
  reachable db h ->
  name <> EmptyString ->
  email <> EmptyString ->
  let r := UserService.createUser name email db in
  UserService.getActiveUsers r.2
  ≡ₚ {| User.id := r.1; User.name := name; User.email := email;
        User.is_active := true |} :: UserService.getActiveUsers db.
Proof.
  intros Hreach Hname Hemail.
  destruct (reachable_wf _ _ Hreach) as [_ _ Hus _].
  unfold UserService.createUser.
  destruct name as [|a name]; [done|]. destruct email as [|b email]; [done|].
  simpl. unfold UserService.getActiveUsers, InMemoryDatabase.findAllUsers. simpl.
  assert (Hfresh : InMemoryDatabase.users_ db
                     !! InMemoryDatabase.next_user_id_ db = None).
  { destruct (InMemoryDatabase.users_ db !! InMemoryDatabase.next_user_id_ db)
      as [u|] eqn:E; [|done].
    destruct (Hus _ _ E). lia. }
  pose proof (map_to_list_insert (InMemoryDatabase.users_ db) _
    (User.with_id (InMemoryDatabase.next_user_id_ db)
       {| User.id := 0; User.name := String a name;
          User.email := String b email; User.is_active := true |})
    Hfresh) as Hperm.
  by rewrite (List_filter_Permutation _ _ _ (Permutation_map snd Hperm)).
Qed.

Lemma createUser_getActiveUsers_witness :
  let r := UserService.createUser "Bob" "bob" sample_db in
  UserService.getActiveUsers r.2
  ≡ₚ {| User.id := r.1; User.name := "Bob"; User.email := "bob";
        User.is_active := true |} :: UserService.getActiveUsers sample_db.
Proof.
  apply (createUser_getActiveUsers sample_db sample_history "Bob" "bob"
           sample_reachable); discriminate.
Defined.
